(** * Help-desk backend: ticket lifecycle, access control and reporting

    A shallow embedding of [models/Ticket.js], [controllers/ticketController.js]
    and the ticket routes, followed by the properties of the lifecycle and
    access-control engine.

    Conventions of the embedding.
    - A [Date] is its number of milliseconds since the epoch, so that the
      subtraction of two dates is the subtraction of integers.
    - An [Id] is an [ObjectId].  The controllers compare the 24-digit
      hexadecimal renderings of two identifiers; the rendering is injective
      and never the empty string, so the comparison is equality of the
      identifiers and [!assignedToId] holds exactly when the field is absent.
      References are taken to resolve, so [populate] does not change the
      identifier a field holds.
    - Every [new Date()] of a handler, and the time stamp the store writes
      for [timestamps: true], is a separate reading of the clock and is an
      argument of its own.  [setHours] and [setDate] move a date on the
      local wall clock of the host, whose [TimeZone] is an argument too.
    - A resolution time is a whole number of minutes: the handlers write
      whole numbers, and a patch that has a resolution time is taken to have
      a whole one.  Sums and means of resolution times are taken exactly;
      the compliance rate is computed on IEEE doubles as the code computes
      it.
    - A request body holds plain keys; a body whose keys are update
      operators ([$set], [$unset], ...) is outside the model.  A handler
      runs against one state of the collection; errors thrown by the driver
      itself (lost connection, malformed identifier) are not modelled.
    - Authentication (the [protect] middleware) is outside the model: a
      handler receives the principal that it resolved, [req.user]. *)

From Stdlib Require Import ZArith NArith QArith Qround Bool List Lia.
From Stdlib Require Import Ascii String Permutation Sorted.
From Stdlib Require Import Floats Uint63 DecimalString.
Import ListNotations.

Local Open Scope string_scope.
Local Open Scope list_scope.
Local Open Scope Z_scope.

(** ** JavaScript primitives used by the handlers *)

Module JS.

(** [Math.round]: the nearest integer, a tie going towards plus infinity. *)
Definition Math_round (q : Q) : Z := Qfloor (q + (1 # 2))%Q.

(** White space removed by [String.prototype.trim], for code units below 256. *)
Definition isWhiteSpace (c : ascii) : bool :=
  let n := N_of_ascii c in
  ((9 <=? n) && (n <=? 13) || (n =? 32) || (n =? 160))%N.

Fixpoint trimStart (l : list ascii) : list ascii :=
  match l with
  | c :: r => if isWhiteSpace c then trimStart r else l
  | [] => []
  end.

Definition trim (s : string) : string :=
  string_of_list_ascii
    (rev (trimStart (rev (trimStart (list_ascii_of_string s))))).

(** [!s] for a value that is a string, [undefined] or [null]. *)
Definition not_ (s : option string) : bool :=
  match s with
  | None => true
  | Some s => (s =? "")%string
  end.

(** [b || false] for a value that is a boolean, [undefined] or [null]. *)
Definition orFalse (b : option bool) : bool :=
  match b with
  | Some b => b
  | None => false
  end.

(** The number (an IEEE double) that holds a count. *)
Definition numberOfCount (n : Z) : float := PrimFloat.of_uint63 (Uint63.of_Z n).

(** The exact value of a finite double. *)
Definition valueOf (x : float) : Q :=
  match Prim2SF x with
  | S754_finite sign m e =>
      let v :=
        (inject_Z (Z.pos m)
         * (if e <? 0 then / inject_Z (2 ^ (- e)) else inject_Z (2 ^ e)))%Q in
      if sign then (- v)%Q else v
  | _ => 0%Q
  end.

(** [Math.round (c / n * 100)] on doubles. *)
Definition percentage (c n : Z) : Z :=
  Math_round
    (valueOf
       (PrimFloat.mul (PrimFloat.div (numberOfCount c) (numberOfCount n))
          (numberOfCount 100))).

(** The host's time zone: the offset of local time from UTC in milliseconds,
    at an instant ([LocalTZA(t, true)]) and for a local time value
    ([LocalTZA(t, false)]). *)
Record TimeZone := mkTimeZone {
  offsetAt : Z -> Z;
  offsetOfLocal : Z -> Z
}.

(** A date moved by [delta] milliseconds of local wall-clock time, as
    [setHours] and [setDate] move it: to local time, shifted, and back. *)
Definition localShift (zone : TimeZone) (delta : Z) (t : Z) : Z :=
  let local := t + offsetAt zone t + delta in
  local - offsetOfLocal zone local.

End JS.

(** ** The ticket model, [models/Ticket.js] *)

Definition Id := N.
Definition Date := Z.
Bind Scope N_scope with Id.
Bind Scope Z_scope with Date.

(** A stored comment; the identifier that the store gives it and its
    modification date are not held. *)
Record Comment := mkComment {
  c_user : Id;
  c_text : string;
  c_isInternal : bool;
  c_createdAt : Date
}.

Record Ticket := mkTicket {
  _id : Id;
  title : string;
  description : string;
  status : string;
  priority : string;
  category : string;
  createdBy : Id;
  assignedTo : option Id;
  slaDeadline : Date;
  comments : list Comment;
  resolutionTime : option Z;
  resolvedAt : option Date;
  createdAt : Date;
  updatedAt : Date
}.

Definition statusEnum : list string := ["open"; "pending"; "resolved"; "closed"].
Definition priorityEnum : list string := ["low"; "medium"; "high"; "urgent"].
Definition categoryEnum : list string :=
  ["technical"; "billing"; "general"; "feature-request"; "bug"].

Definition inEnum (s : string) (enum : list string) : bool :=
  existsb (String.eqb s) enum.

Inductive SlaStatus := completed | breached | warning | normal.

Definition twoHours : Z := 2 * 60 * 60 * 1000.

(** The virtual [slaStatus]; [now] is the [new Date()] of the getter. *)
Definition slaStatus (this : Ticket) (now : Date) : SlaStatus :=
  if (status this =? "resolved")%string || (status this =? "closed")%string
  then completed
  else
    let timeRemaining := slaDeadline this - now in
    if timeRemaining <? 0 then breached
    else if timeRemaining <? twoHours then warning
    else normal.

Definition minutesBetween (createdTime resolvedTime : Date) : Z :=
  JS.Math_round (inject_Z (resolvedTime - createdTime) / inject_Z (1000 * 60))%Q.



(** ** Requests and responses *)

(** The authenticated principal, [req.user]. *)
Record Principal := mkPrincipal {
  pid : Id;
  role : string
}.

(** A comment as a request body gives it. *)
Record CommentInput := mkCommentInput {
  ci_user : option Id;
  ci_text : option string;
  ci_isInternal : option bool
}.

(** The keys of [req.body] that a handler or the schema can observe; [None]
    is an absent key, and [Some None] the value [null] where it is allowed. *)
Record Body := mkBody {
  b_title : option string;
  b_description : option string;
  b_category : option string;
  b_priority : option string;
  b_status : option string;
  b_createdBy : option Id;
  b_assignedTo : option (option Id);
  b_slaDeadline : option Date;
  b_comments : option (list CommentInput);
  b_resolutionTime : option (option Z);
  b_resolvedAt : option (option Date);
  b_text : option string;
  b_isInternal : option bool
}.

Definition set_b_resolvedAt (v : option Date) (b : Body) : Body :=
  mkBody (b_title b) (b_description b) (b_category b) (b_priority b)
    (b_status b) (b_createdBy b) (b_assignedTo b) (b_slaDeadline b)
    (b_comments b) (b_resolutionTime b) (Some v) (b_text b) (b_isInternal b).

Definition set_b_resolutionTime (v : option Z) (b : Body) : Body :=
  mkBody (b_title b) (b_description b) (b_category b) (b_priority b)
    (b_status b) (b_createdBy b) (b_assignedTo b) (b_slaDeadline b)
    (b_comments b) (Some v) (b_resolvedAt b) (b_text b) (b_isInternal b).

(** The [message] of a 400 response: a literal of the handler, the message
    of a validation error (the paths that failed, listed here in the order
    of the schema, whatever the order in which the message names them), or
    the message of the [TypeError] raised by reading [_id] of a [null]
    document. *)
Inductive Message :=
| Text (s : string)
| ValidationFailed (paths : list string)
| NullDocument.

(** [res.status(code).json(body)]. *)
Inductive Response (A : Type) :=
| Ok200 (body : A)
| Created201 (body : A)
| BadRequest400 (m : Message)
| Forbidden403 (m : string)
| NotFound404 (m : string).

Arguments Ok200 {A} body.
Arguments Created201 {A} body.
Arguments BadRequest400 {A} m.
Arguments Forbidden403 {A} m.
Arguments NotFound404 {A} m.

(** ** The collection of tickets, as the handlers use it *)

Module Store.

(** The documents in their natural (insertion) order. *)
Definition Collection := list Ticket.

(** One key of a filter object. *)
Inductive Cond :=
| createdBy_is (u : Id)
| assignedTo_is (u : Id)
| status_is (s : string)
| status_in (l : list string)
| resolutionTime_ne_null_gt_0
| createdAt_gte (d : Date)
| resolvedAt_exists_ne_null.

(** A filter object; [{...q, k: v}] is [q ++ [k_v]]. *)
Definition Query := list Cond.

Definition holds (t : Ticket) (c : Cond) : bool :=
  match c with
  | createdBy_is u => (createdBy t =? u)%N
  | assignedTo_is u =>
      match assignedTo t with
      | Some a => (a =? u)%N
      | None => false
      end
  | status_is s => (status t =? s)%string
  | status_in l => inEnum (status t) l
  | resolutionTime_ne_null_gt_0 =>
      match resolutionTime t with
      | Some r => 0 <? r
      | None => false
      end
  | createdAt_gte d => d <=? createdAt t
  | resolvedAt_exists_ne_null =>
      match resolvedAt t with
      | Some _ => true
      | None => false
      end
  end.

Definition matches (q : Query) (t : Ticket) : bool := forallb (holds t) q.

Definition find (q : Query) (db : Collection) : list Ticket :=
  filter (matches q) db.

Definition countDocuments (q : Query) (db : Collection) : Z :=
  Z.of_nat (List.length (find q db)).

Definition findById (i : Id) (db : Collection) : option Ticket :=
  List.find (fun t => (_id t =? i)%N) db.

(** [.sort({ createdAt: -1 })], keeping the natural order among equal keys. *)
Fixpoint insertDesc (t : Ticket) (l : list Ticket) : list Ticket :=
  match l with
  | [] => [t]
  | x :: r =>
      if createdAt x <=? createdAt t then t :: l else x :: insertDesc t r
  end.

Definition sortByCreatedAtDesc (l : list Ticket) : list Ticket :=
  fold_right insertDesc [] l.

(** [$group: { _id: '$key', count: { $sum: 1 } }], the groups in the order
    in which their first document is met. *)
Fixpoint bump (k : string) (groups : list (string * Z)) : list (string * Z) :=
  match groups with
  | [] => [(k, 1)]
  | (k', n) :: r =>
      if (k' =? k)%string then (k', n + 1) :: r else (k', n) :: bump k r
  end.

Definition groupCount (key : Ticket -> string) (l : list Ticket)
  : list (string * Z) :=
  fold_left (fun groups t => bump (key t) groups) l [].

(** A key of a [$match] stage: the pipeline of [aggregate] is not cast to
    the schema, so the string of an identifier equals no stored [ObjectId]. *)
Definition holdsUncast (t : Ticket) (c : Cond) : bool :=
  match c with
  | createdBy_is _ | assignedTo_is _ => false
  | _ => holds t c
  end.

Definition matchesUncast (q : Query) (t : Ticket) : bool :=
  forallb (holdsUncast t) q.

(** [Ticket.aggregate([{ $match: q }, { $group: ... }])]. *)
Definition aggregate (q : Query) (key : Ticket -> string) (db : Collection)
  : list (string * Z) :=
  groupCount key (filter (matchesUncast q) db).

(** *** Schema validation *)

Definition check (ok : bool) (path : string) : list string :=
  if ok then [] else [path].

Definition checkKey {A} (v : option A) (ok : A -> bool) (path : string)
  : list string :=
  match v with
  | Some a => check (ok a) path
  | None => []
  end.

(** [required] and [maxlength: 100]. *)
Definition validTitle (s : string) : bool :=
  negb (s =? "")%string && (String.length s <=? 100)%nat.

(** [required]. *)
Definition validDescription (s : string) : bool := negb (s =? "")%string.

(** The paths of a new document that fail their validators. *)
Definition invalidPaths (t : Ticket) : list string :=
  check (validTitle (title t)) "title"
  ++ check (validDescription (description t)) "description"
  ++ check (inEnum (status t) statusEnum) "status"
  ++ check (inEnum (priority t) priorityEnum) "priority"
  ++ check (inEnum (category t) categoryEnum) "category".

Definition commentPath (i : nat) (key : string) : string :=
  String.append "comments."
    (String.append (NilEmpty.string_of_uint (Nat.to_uint i))
       (String.append "." key)).

(** The paths of stored comments, from index [i] on, that fail [required]. *)
Fixpoint invalidComments (i : nat) (l : list Comment) : list string :=
  match l with
  | [] => []
  | c :: r =>
      check (negb (c_text c =? "")%string) (commentPath i "text")
      ++ invalidComments (S i) r
  end.

(** The paths of a document that fail their validators when it is saved. *)
Definition invalidDocumentPaths (t : Ticket) : list string :=
  invalidPaths t ++ invalidComments 0 (comments t).

(** The paths of the comments of an update, from index [i] on, that fail
    [required]. *)
Fixpoint invalidCommentInputs (i : nat) (l : list CommentInput)
  : list string :=
  match l with
  | [] => []
  | c :: r =>
      check (match ci_user c with Some _ => true | None => false end)
        (commentPath i "user")
      ++ check (negb (JS.not_ (ci_text c))) (commentPath i "text")
      ++ invalidCommentInputs (S i) r
  end.

(** The paths of an update that fail their validators ([runValidators]). *)
Definition invalidUpdatePaths (b : Body) : list string :=
  checkKey (b_title b) (fun s => validTitle (JS.trim s)) "title"
  ++ checkKey (b_description b)
       (fun s => validDescription (JS.trim s)) "description"
  ++ checkKey (b_status b) (fun s => inEnum s statusEnum) "status"
  ++ checkKey (b_priority b) (fun s => inEnum s priorityEnum) "priority"
  ++ checkKey (b_category b) (fun s => inEnum s categoryEnum) "category"
  ++ match b_comments b with
     | Some l => invalidCommentInputs 0 l
     | None => []
     end.

(** The driver draws an identifier that the collection does not hold. *)
Definition maxId (db : Collection) : Id :=
  fold_right (fun t m => N.max (_id t) m) 0%N db.

Definition newId (db : Collection) : Id := N.succ (maxId db).

(** The fields the caller passes to [Ticket.create]. *)
Record NewTicket := mkNewTicket {
  n_title : string;
  n_description : string;
  n_category : string;
  n_priority : string;
  n_createdBy : Id;
  n_slaDeadline : Date
}.

(** The document [Ticket.create] builds: setters ([trim]), defaults
    ([status], [resolutionTime]) and time stamps. *)
Definition newDocument (n : NewTicket) (i : Id) (stamp : Date) : Ticket :=
  mkTicket i (JS.trim (n_title n)) (JS.trim (n_description n)) "open"
    (n_priority n) (n_category n) (n_createdBy n) None (n_slaDeadline n)
    [] None None stamp stamp.

(** [Ticket.create]: the new collection and document, or the failing paths. *)
Definition create (n : NewTicket) (db : Collection) (stamp : Date)
  : Collection * (Ticket + list string) :=
  let doc := newDocument n (newId db) stamp in
  match invalidPaths doc with
  | [] => (db ++ [doc], inl doc)
  | paths => (db, inr paths)
  end.

Definition orElse {A} (v : option A) (d : A) : A :=
  match v with
  | Some a => a
  | None => d
  end.

(** The comment the store builds from a comment of an update that passed
    the validators: the default of [isInternal] and its own time stamp. *)
Definition storeComment (stamp : Date) (c : CommentInput) : Comment :=
  mkComment (orElse (ci_user c) 0%N) (orElse (ci_text c) "")
    (JS.orFalse (ci_isInternal c)) stamp.

(** The document after [$set] of the keys of [b] that the schema has. *)
Definition applyUpdate (b : Body) (t : Ticket) (stamp : Date) : Ticket :=
  mkTicket (_id t)
    (orElse (option_map JS.trim (b_title b)) (title t))
    (orElse (option_map JS.trim (b_description b)) (description t))
    (orElse (b_status b) (status t))
    (orElse (b_priority b) (priority t))
    (orElse (b_category b) (category t))
    (orElse (b_createdBy b) (createdBy t))
    (orElse (b_assignedTo b) (assignedTo t))
    (orElse (b_slaDeadline b) (slaDeadline t))
    (orElse (option_map (map (storeComment stamp)) (b_comments b)) (comments t))
    (orElse (b_resolutionTime b) (resolutionTime t))
    (orElse (b_resolvedAt b) (resolvedAt t))
    (createdAt t)
    stamp.

(** Replace the first document whose identifier is [i]. *)
Fixpoint replaceById (i : Id) (f : Ticket -> Ticket) (db : Collection)
  : Collection :=
  match db with
  | [] => []
  | t :: r => if (_id t =? i)%N then f t :: r else t :: replaceById i f r
  end.

(** [Ticket.findByIdAndUpdate(i, b, { new: true, runValidators: true })]:
    the failing paths, or the new collection and the updated document
    ([None] for [null], when no document has the identifier). *)
Definition findByIdAndUpdate (i : Id) (b : Body) (db : Collection)
    (stamp : Date) : Collection * (option Ticket + list string) :=
  match invalidUpdatePaths b with
  | [] =>
      let db' := replaceById i (fun t => applyUpdate b t stamp) db in
      (db', inl (findById i db'))
  | paths => (db, inr paths)
  end.

Definition pushComment (c : Comment) (t : Ticket) (stamp : Date) : Ticket :=
  mkTicket (_id t) (title t) (description t) (status t) (priority t)
    (category t) (createdBy t) (assignedTo t) (slaDeadline t)
    (comments t ++ [c]) (resolutionTime t) (resolvedAt t) (createdAt t)
    stamp.

End Store.

(** ** The handlers, [controllers/ticketController.js] *)

Import Store.

(** [d.setHours(d.getHours() + h)] and [d.setDate(d.getDate() + n)]. *)
Definition addHours (zone : JS.TimeZone) (h : Z) (d : Date) : Date :=
  JS.localShift zone (h * (60 * 60 * 1000)) d.
Definition addDays (zone : JS.TimeZone) (n : Z) (d : Date) : Date :=
  JS.localShift zone (n * (24 * 60 * 60 * 1000)) d.

(** [createTicket]; [now] is the [new Date()] of the handler and [stamp] the
    time at which the store saves the document. *)
Definition createTicket (zone : JS.TimeZone) (user : Principal) (body : Body)
    (db : Collection) (now stamp : Date)
  : Collection * Response (option Ticket) :=
  if JS.not_ (b_title body) || JS.not_ (b_description body)
     || JS.not_ (b_category body) || JS.not_ (b_priority body)
  then
    (db, BadRequest400
           (Text "Please provide title, description, category, and priority"))
  else
    let slaDeadline := addHours zone 24 now in
    match
      create
        (mkNewTicket (orElse (b_title body) "") (orElse (b_description body) "")
           (orElse (b_category body) "") (orElse (b_priority body) "")
           (pid user) slaDeadline)
        db stamp
    with
    | (db', inl ticket) => (db', Created201 (findById (_id ticket) db'))
    | (_, inr paths) => (db, BadRequest400 (ValidationFailed paths))
    end.

(** The filter [getTickets] builds from the role. *)
Definition listQuery (user : Principal) : Query :=
  (if (role user =? "user")%string then [createdBy_is (pid user)] else [])
  ++ (if (role user =? "agent")%string then [assignedTo_is (pid user)] else []).

Definition getTickets (user : Principal) (db : Collection)
  : Response (list Ticket) :=
  Ok200 (sortByCreatedAtDesc (find (listQuery user) db)).

(** The permission block that [getTicket], [updateTicket] and [addComment]
    each carry, the message for an agent apart: the message of the 403
    response, or [None] when the handler goes on. *)
Definition accessDenied (user : Principal) (ticket : Ticket)
    (agentMessage : string) : option string :=
  if (role user =? "user")%string && negb (createdBy ticket =? pid user)%N
  then Some "Access denied"
  else if (role user =? "agent")%string
          && match assignedTo ticket with
             | Some assignedToId => negb (assignedToId =? pid user)%N
             | None => true
             end
  then Some agentMessage
  else None.

Definition getTicket (user : Principal) (i : Id) (db : Collection)
  : Response Ticket :=
  match findById i db with
  | None => NotFound404 "Ticket not found"
  | Some ticket =>
      match
        accessDenied user ticket
          "Access denied. This ticket is not assigned to you."
      with
      | Some m => Forbidden403 m
      | None => Ok200 ticket
      end
  end.

(** [req.body.status === 'resolved' && ticket.status !== 'resolved']. *)
Definition beingResolved (body : Body) (ticket : Ticket) : bool :=
  match b_status body with
  | Some s => (s =? "resolved")%string && negb (status ticket =? "resolved")%string
  | None => false
  end.

(** The body [updateTicket] hands to the store; [now1] and [now2] are its two
    [new Date()], in this order. *)
Definition lifecycle (body : Body) (ticket : Ticket) (now1 now2 : Date) : Body :=
  let body1 :=
    if beingResolved body ticket then set_b_resolvedAt (Some now1) body
    else body in
  if beingResolved body ticket
  then set_b_resolutionTime
         (Some (minutesBetween (createdAt ticket) now2)) body1
  else body1.

Definition updateTicket (user : Principal) (i : Id) (body : Body)
    (db : Collection) (now1 now2 stamp : Date) : Collection * Response Ticket :=
  match findById i db with
  | None => (db, NotFound404 "Ticket not found")
  | Some ticket =>
      match accessDenied user ticket "Access denied. Ticket not assigned to you." with
      | Some m => (db, Forbidden403 m)
      | None =>
          match
            findByIdAndUpdate i (lifecycle body ticket now1 now2) db stamp
          with
          | (db', inl (Some ticket')) => (db', Ok200 ticket')
          | (db', inl None) => (db', BadRequest400 NullDocument)
          | (_, inr paths) => (db, BadRequest400 (ValidationFailed paths))
          end
      end
  end.

Definition addComment (user : Principal) (i : Id) (body : Body)
    (db : Collection) (stamp : Date) : Collection * Response (option Ticket) :=
  let text := orElse (b_text body) "" in
  if JS.not_ (b_text body) || (JS.trim text =? "")%string
  then (db, BadRequest400 (Text "Comment text is required"))
  else
    match findById i db with
    | None => (db, NotFound404 "Ticket not found")
    | Some ticket =>
        match
          accessDenied user ticket "Access denied. Ticket not assigned to you."
        with
        | Some m => (db, Forbidden403 m)
        | None =>
            let comment :=
              mkComment (pid user) (JS.trim text)
                (JS.orFalse (b_isInternal body)) stamp in
            match
              invalidDocumentPaths (pushComment comment ticket stamp)
            with
            | [] =>
                let db' :=
                  replaceById i (fun t => pushComment comment t stamp) db in
                (db', Ok200 (findById i db'))
            | paths => (db, BadRequest400 (ValidationFailed paths))
            end
        end
    end.

(** *** The dashboard *)

Record StatsReport := mkStatsReport {
  totalTickets : Z;
  openTickets : Z;
  pendingTickets : Z;
  resolvedTickets : Z;
  closedTickets : Z;
  avgResolutionTime : Z;
  slaComplianceRate : Z;
  slaCompliantTickets : Z;
  priorityStats : list (string * Z);
  categoryStats : list (string * Z);
  statusStats : list (string * Z);
  recentTickets : Z;
  slaStatus_normal : Z;
  slaStatus_warning : Z;
  slaStatus_breached : Z
}.

(** [reduce((acc, ticket) => acc + ticket.resolutionTime, 0)]; [null] adds 0. *)
Definition sumResolutionTime (l : list Ticket) : Z :=
  fold_left (fun acc ticket => acc + orElse (resolutionTime ticket) 0) l 0.

(** The mean kept in the local [avgResolutionTime], before it is rounded. *)
Definition meanResolutionTime (l : list Ticket) : Q :=
  if (0 <? List.length l)%nat
  then (inject_Z (sumResolutionTime l) / inject_Z (Z.of_nat (List.length l)))%Q
  else 0%Q.

(** The loop over [resolvedAndClosedTickets]:
    [(slaCompliantTickets, totalResolvedWithSLA)]. *)
Definition slaCounters (l : list Ticket) : Z * Z :=
  fold_left
    (fun '(compliant, total) ticket =>
       match resolvedAt ticket with
       | Some r =>
           (if r <=? slaDeadline ticket then compliant + 1 else compliant,
            total + 1)
       | None => (compliant, total)
       end)
    l (0, 0).

(** The loop over [allTickets]: [(slaNormal, slaWarning, slaBreached)]. *)
Definition slaBreakdown (l : list Ticket) (now : Date) : Z * Z * Z :=
  fold_left
    (fun '(slaNormal, slaWarning, slaBreached) ticket =>
       if (status ticket =? "resolved")%string
          || (status ticket =? "closed")%string
       then (slaNormal, slaWarning, slaBreached)
       else
         let timeRemaining := slaDeadline ticket - now in
         if timeRemaining <? 0 then (slaNormal, slaWarning, slaBreached + 1)
         else if timeRemaining <? twoHours
         then (slaNormal, slaWarning + 1, slaBreached)
         else (slaNormal + 1, slaWarning, slaBreached))
    l (0, 0, 0).

(** The body of [getDashboardStats] once [statsQuery] is built; [now1] is the
    [new Date()] of [oneWeekAgo] and [now2] the one of the SLA breakdown. *)
Definition computeStats (zone : JS.TimeZone) (statsQuery : Query)
    (db : Collection) (now1 now2 : Date) : StatsReport :=
  let resolvedTicketsWithTime :=
    find (statsQuery ++ [status_is "resolved"; resolutionTime_ne_null_gt_0]) db in
  let oneWeekAgo := addDays zone (-7) now1 in
  let resolvedAndClosedTickets :=
    find (statsQuery
          ++ [status_in ["resolved"; "closed"]; resolvedAt_exists_ne_null]) db in
  let '(compliant, totalResolvedWithSLA) :=
    slaCounters resolvedAndClosedTickets in
  let '(slaNormal, slaWarning, slaBreached) :=
    slaBreakdown (find statsQuery db) now2 in
  mkStatsReport
    (countDocuments statsQuery db)
    (countDocuments (statsQuery ++ [status_is "open"]) db)
    (countDocuments (statsQuery ++ [status_is "pending"]) db)
    (countDocuments (statsQuery ++ [status_is "resolved"]) db)
    (countDocuments (statsQuery ++ [status_is "closed"]) db)
    (JS.Math_round (meanResolutionTime resolvedTicketsWithTime))
    (if 0 <? totalResolvedWithSLA
     then JS.percentage compliant totalResolvedWithSLA
     else 0)
    compliant
    (aggregate statsQuery priority db)
    (aggregate statsQuery category db)
    (aggregate statsQuery status db)
    (countDocuments (statsQuery ++ [createdAt_gte oneWeekAgo]) db)
    slaNormal slaWarning slaBreached.

Definition statsQueryOf (user : Principal) : Query :=
  if (role user =? "agent")%string then [assignedTo_is (pid user)] else [].

Definition getDashboardStats (zone : JS.TimeZone) (user : Principal)
    (db : Collection) (now1 now2 : Date) : Response StatsReport :=
  Ok200 (computeStats zone (statsQueryOf user) db now1 now2).

(** ** The route of the dashboard, [routes/tickets.js] *)

(** Modelled from the spec: the [admin] middleware of [middleware/auth.js],
    which the route [GET /dashboard/stats] runs before [getDashboardStats] and
    whose code is not among the sources.  The spec gives reporting access to
    administrators and agents alone ("sole holder of reporting access
    alongside agents") and denies the role [user] entirely. *)
Definition admin (user : Principal) : bool :=
  (role user =? "admin")%string || (role user =? "agent")%string.

Section Routes.

(** The message of the 403 response of the middleware. *)
Variable notAuthorized : string.

(** [router.get('/dashboard/stats', protect, admin, getDashboardStats)]. *)
Definition dashboardStats (zone : JS.TimeZone) (user : Principal)
    (db : Collection) (now1 now2 : Date) : Response StatsReport :=
  if admin user then getDashboardStats zone user db now1 now2
  else Forbidden403 notAuthorized.

End Routes.

(** ** Vocabulary of the statements *)

(** The roles of the data model. *)
Definition knownRole (user : Principal) : Prop :=
  role user = "user" \/ role user = "agent" \/ role user = "admin".

(** The access rule of the specification for a single ticket. *)
Definition mayAccess (user : Principal) (ticket : Ticket) : Prop :=
  role user = "admin"
  \/ (role user = "user" /\ createdBy ticket = pid user)
  \/ (role user = "agent" /\ assignedTo ticket = Some (pid user)).

Definition assignedToUser (user : Principal) (ticket : Ticket) : bool :=
  match assignedTo ticket with
  | Some a => (a =? pid user)%N
  | None => false
  end.

(** A draft that passes the check of the handler and the validators of the
    schema. *)
Definition validDraft (body : Body) : bool :=
  match b_title body, b_description body, b_category body, b_priority body with
  | Some t, Some d, Some c, Some p =>
      validTitle (JS.trim t) && validDescription (JS.trim d)
      && inEnum c categoryEnum && inEnum p priorityEnum
  | _, _, _, _ => false
  end.

(** The tickets a report covers: all of them, or for an agent the assigned. *)
Definition reportScope (user : Principal) (db : Collection) : list Ticket :=
  filter
    (fun t => negb (role user =? "agent")%string || assignedToUser user t) db.

(** The resolution times that enter the average: those of the tickets whose
    status is resolved and whose resolution time is present and positive. *)
Definition qualifyingTimes (scope : list Ticket) : list Z :=
  flat_map
    (fun t =>
       match resolutionTime t with
       | Some r => if (status t =? "resolved")%string && (0 <? r) then [r] else []
       | None => []
       end)
    scope.

Definition sumZ (l : list Z) : Z := fold_right Z.add 0 l.

Definition mean (l : list Z) : Q :=
  (inject_Z (sumZ l) / inject_Z (Z.of_nat (List.length l)))%Q.

Definition msPerDay : Z := 86400000.

(** The document [createTicket] stores for a valid draft. *)
Definition draftDocument (zone : JS.TimeZone) (user : Principal) (body : Body)
    (db : Collection) (now stamp : Date) : Ticket :=
  newDocument
    (mkNewTicket (orElse (b_title body) "") (orElse (b_description body) "")
       (orElse (b_category body) "") (orElse (b_priority body) "")
       (pid user) (addHours zone 24 now))
    (newId db) stamp.

(** Two request bodies with the same title, description, category and
    priority. *)
Definition sameDraft (body body' : Body) : Prop :=
  b_title body' = b_title body
  /\ b_description body' = b_description body
  /\ b_category body' = b_category body
  /\ b_priority body' = b_priority body.

(** ** Sample data *)

Module Sample.

Definition creator : Principal := mkPrincipal 1 "user".
Definition stranger : Principal := mkPrincipal 4 "user".
Definition agentG : Principal := mkPrincipal 2 "agent".
Definition agentG2 : Principal := mkPrincipal 5 "agent".
Definition root : Principal := mkPrincipal 3 "admin".
Definition manager : Principal := mkPrincipal 6 "manager".

(** A ticket of [creator] filed at [created], with its deadline a day later. *)
Definition ticket (i : Id) (st : string) (assignee : option Id)
    (created : Date) (minutes : option Z) (resolved : option Date) : Ticket :=
  mkTicket i "Printer broken" "It does not print" st "high" "bug" 1%N
    assignee (created + msPerDay) [] minutes resolved created created.

Definition ticket1 : Ticket := ticket 1 "open" (Some 2%N) 0 None None.
Definition ticket2 : Ticket :=
  ticket 2 "resolved" (Some 2%N) 0 (Some 30) (Some 1800000).
Definition ticket3 : Ticket := ticket 3 "open" (Some 2%N) 0 None None.
Definition ticket4 : Ticket :=
  ticket 4 "resolved" (Some 5%N) 0 (Some 1) (Some 60000).
Definition ticket5 : Ticket :=
  ticket 5 "resolved" (Some 5%N) 0 (Some 2) (Some 120000).
Definition ticket6 : Ticket := ticket 6 "open" None 0 None None.

Definition store : Collection :=
  [ticket1; ticket2; ticket3; ticket4; ticket5; ticket6].

(** A draft that also supplies the fields the handler does not read. *)
Definition draft : Body :=
  mkBody (Some "  Printer broken ") (Some "It does not print") (Some "bug")
    (Some "high") (Some "closed") (Some 4%N) (Some (Some 5%N)) (Some 0) None
    (Some (Some 3)) (Some (Some 7)) None None.

Definition withStatus (s : string) : Body :=
  mkBody None None None None (Some s) None None None None None None None None.

Definition withDeadline (d : Date) (u : Id) : Body :=
  mkBody None None None None None (Some u) None (Some d) None None None
    None None.

Definition withResolutionTime (s : option string) (m : Z) : Body :=
  mkBody None None None None s None None None None (Some (Some m)) None
    None None.

Definition withText (s : string) : Body :=
  mkBody None None None None None None None None None None None (Some s) None.

Definition hour : Z := 60 * 60 * 1000.

(** A host on UTC. *)
Definition utc : JS.TimeZone := JS.mkTimeZone (fun _ => 0) (fun _ => 0).

(** A host one hour ahead of UTC until daylight saving ends, twelve hours
    after the epoch, and on UTC from then on. *)
Definition summer : JS.TimeZone :=
  JS.mkTimeZone (fun t => if t <? 12 * hour then hour else 0)
    (fun l => if l <? 13 * hour then hour else 0).

End Sample.
(** ** The listings by role *)

(** [getMyTickets]. *)
Definition getMyTickets (user : Principal) (db : Collection)
  : Response (list Ticket) :=
  Ok200 (sortByCreatedAtDesc (find [createdBy_is (pid user)] db)).

(** [getAssignedTickets]. *)
Definition getAssignedTickets (user : Principal) (db : Collection)
  : Response (list Ticket) :=
  Ok200 (sortByCreatedAtDesc (find [assignedTo_is (pid user)] db)).

(** ** Vocabulary of the further statements *)

(** The identifier and the creation date of every document, in order. *)
Definition identities (db : Collection) : list (Id * Date) :=
  map (fun t => (_id t, createdAt t)) db.

(** A 200 or 201 response. *)
Definition isSuccess {A} (r : Response A) : bool :=
  match r with
  | Ok200 _ | Created201 _ => true
  | _ => false
  end.

(** A 403 response. *)
Definition isForbidden {A} (r : Response A) : bool :=
  match r with
  | Forbidden403 _ => true
  | _ => false
  end.

(** A comment text that is absent or holds white space only. *)
Definition blankText (body : Body) : Prop :=
  forall s, b_text body = Some s -> JS.trim s = "".

(** Newest first. *)
Definition newestFirst (l : list Ticket) : Prop :=
  StronglySorted (fun a b => createdAt b <= createdAt a) l.

(** A stored document passes the validators of the schema. *)
Definition schemaValid (t : Ticket) : Prop := invalidPaths t = [].

(** The resolution date and the resolution time are both present or both
    absent. *)
Definition pairedResolution (t : Ticket) : Prop :=
  resolvedAt t = None <-> resolutionTime t = None.

(** A ticket that is neither resolved nor closed. *)
Definition isLive (t : Ticket) : bool :=
  negb ((status t =? "resolved")%string || (status t =? "closed")%string).

Definition countIf (f : Ticket -> bool) (l : list Ticket) : Z :=
  Z.of_nat (List.length (filter f l)).

Definition SlaStatus_eqb (a b : SlaStatus) : bool :=
  match a, b with
  | completed, completed | breached, breached
  | warning, warning | normal, normal => true
  | _, _ => false
  end.

Definition sumCounts (groups : list (string * Z)) : Z :=
  fold_right (fun g acc => snd g + acc) 0 groups.

(** The count a list of groups gives for a key. *)
Definition countOf (k : string) (groups : list (string * Z)) : Z :=
  fold_right
    (fun g acc => if (fst g =? k)%string then snd g + acc else acc) 0 groups.

(** A list of groups that gives, for every value of [key] met in [scope] and
    for no other, the number of tickets of [scope] that have it. *)
Definition exactDistribution (key : Ticket -> string) (scope : list Ticket)
    (groups : list (string * Z)) : Prop :=
  NoDup (map fst groups)
  /\ sumCounts groups = Z.of_nat (List.length scope)
  /\ forall k n,
       In (k, n) groups
       <-> 0 < n /\ n = countIf (fun t => (key t =? k)%string) scope.

(** A resolved or closed ticket that has a resolution date. *)
Definition resolvedOnRecord (t : Ticket) : bool :=
  inEnum (status t) ["resolved"; "closed"]
  && match resolvedAt t with Some _ => true | None => false end.

(** A ticket resolved no later than its deadline. *)
Definition metDeadline (t : Ticket) : bool :=
  match resolvedAt t with
  | Some r => r <=? slaDeadline t
  | None => false
  end.

(** ** Further sample requests *)

Module Cases.

Definition assignTo (g : option Id) : Body :=
  mkBody None None None None None None (Some g) None None None None None None.


End Cases.

(** A ticket that passes every validator of the schema, those of its
    comments included, as [save] checks them. *)
Definition documentValid (t : Ticket) : Prop := invalidDocumentPaths t = [].

(** The host's offset from UTC is the same at [now] and at the local time
    [delta] milliseconds later. *)
Definition steadyOffset (zone : JS.TimeZone) (delta : Z) (now : Date) : Prop :=
  JS.offsetOfLocal zone (now + JS.offsetAt zone now + delta)
  = JS.offsetAt zone now.

(** * Properties *)

(** ** Rounding *)

Lemma Math_round_nearest (q : Q) :
  (inject_Z (JS.Math_round q) <= q + (1 # 2) /\
   q + (1 # 2) < inject_Z (JS.Math_round q + 1))%Q.
Proof.
  unfold JS.Math_round; split.
  - apply Qfloor_le.
  - apply Qlt_floor.
Qed.

Lemma Math_round_div (n d : Z) :
  0 < d ->
  JS.Math_round (inject_Z n / inject_Z d)%Q = (2 * n + d) / (2 * d).
Proof.
  intros Hd. unfold JS.Math_round.
  rewrite Zdiv_Qdiv. apply Qfloor_comp.
  rewrite !inject_Z_plus, !inject_Z_mult.
  field. intros H. change 0%Q with (inject_Z 0) in H.
  rewrite inject_Z_injective in H. lia.
Qed.

Lemma Math_round_comp (q q' : Q) :
  (q == q')%Q -> JS.Math_round q = JS.Math_round q'.
Proof.
  intros H. unfold JS.Math_round. apply Qfloor_comp. now rewrite H.
Qed.

Lemma Math_round_Z (k : Z) : JS.Math_round (inject_Z k) = k.
Proof.
  assert (H : JS.Math_round (inject_Z k)
              = JS.Math_round (inject_Z k / inject_Z 1)%Q).
  { unfold JS.Math_round. apply Qfloor_comp. field. }
  rewrite H, Math_round_div by lia.
  replace (2 * k + 1) with (1 + k * 2) by lia.
  rewrite Z.div_add by lia. reflexivity.
Qed.

Lemma minutesBetween_div (createdTime resolvedTime : Date) :
  minutesBetween createdTime resolvedTime =
  (resolvedTime - createdTime + 30000) / 60000.
Proof.
  unfold minutesBetween. rewrite Math_round_div by lia.
  change (2 * (1000 * 60)) with (2 * 60000).
  replace (2 * (resolvedTime - createdTime) + 1000 * 60)
    with ((resolvedTime - createdTime + 30000) * 2) by lia.
  rewrite Z.mul_comm with (n := 2).
  apply Z.div_mul_cancel_r; lia.
Qed.

(** ** The collection *)

Lemma matches_app (q q' : Query) (t : Ticket) :
  matches (q ++ q') t = matches q t && matches q' t.
Proof. apply forallb_app. Qed.

Lemma find_nil (db : Collection) : find [] db = db.
Proof.
  unfold find. induction db as [|t db IH]; simpl; [reflexivity|].
  now rewrite IH.
Qed.

Lemma find_app (q q' : Query) (db : Collection) :
  find (q ++ q') db = find q' (find q db).
Proof.
  unfold find. induction db as [|t db IH]; simpl; [reflexivity|].
  rewrite matches_app. destruct (matches q t); simpl.
  - destruct (matches q' t); now rewrite IH.
  - exact IH.
Qed.

Lemma findById_replaceById (i j : Id) (f : Ticket -> Ticket) (db : Collection) :
  (forall t, _id (f t) = _id t) ->
  findById j (replaceById i f db) =
  if (j =? i)%N then option_map f (findById i db) else findById j db.
Proof.
  intros Hf. unfold findById.
  induction db as [|t db IH]; simpl.
  - now destruct (j =? i)%N.
  - destruct (N.eqb_spec (_id t) i) as [Hti|Hti]; simpl.
    + rewrite Hf, Hti. destruct (N.eqb_spec j i) as [->|Hji].
      * now rewrite N.eqb_refl.
      * destruct (N.eqb_spec i j); [congruence|reflexivity].
    + rewrite IH. destruct (N.eqb_spec j i) as [->|Hji].
      * destruct (N.eqb_spec (_id t) i); [contradiction|reflexivity].
      * reflexivity.
Qed.

Lemma findById_id (i : Id) (db : Collection) (t : Ticket) :
  findById i db = Some t -> _id t = i.
Proof.
  unfold findById. intros H. apply find_some in H.
  now apply N.eqb_eq.
Qed.

Lemma findById_above (i : Id) (db : Collection) (doc : Ticket) :
  (maxId db < i)%N -> _id doc = i -> findById i (db ++ [doc]) = Some doc.
Proof.
  intros Hmax Hdoc. unfold findById.
  induction db as [|t db IH]; simpl in *.
  - now rewrite Hdoc, N.eqb_refl.
  - destruct (N.eqb_spec (_id t) i) as [Hti|Hti]; [lia|].
    apply IH. lia.
Qed.

Lemma findById_newId (db : Collection) (doc : Ticket) :
  _id doc = newId db -> findById (newId db) (db ++ [doc]) = Some doc.
Proof.
  intros H. apply findById_above; [|exact H].
  unfold newId. lia.
Qed.

Lemma insertDesc_perm (t : Ticket) (l : list Ticket) :
  Permutation (t :: l) (insertDesc t l).
Proof.
  induction l as [|x l IH]; simpl; [reflexivity|].
  destruct (createdAt x <=? createdAt t); [reflexivity|].
  rewrite perm_swap. now apply perm_skip.
Qed.

Lemma sortByCreatedAtDesc_perm (l : list Ticket) :
  Permutation l (sortByCreatedAtDesc l).
Proof.
  induction l as [|x l IH]; simpl; [constructor|].
  rewrite <- insertDesc_perm. now apply perm_skip.
Qed.

(** ** Access control *)

Lemma accessDenied_None (user : Principal) (ticket : Ticket) (m : string) :
  accessDenied user ticket m = None <->
  (role user = "user" -> createdBy ticket = pid user)
  /\ (role user = "agent" -> assignedTo ticket = Some (pid user)).
Proof.
  unfold accessDenied.
  destruct (String.eqb_spec (role user) "user") as [Hu|Hu];
    destruct (String.eqb_spec (role user) "agent") as [Ha|Ha];
    try (rewrite Hu in Ha; discriminate); simpl.
  - destruct (N.eqb_spec (createdBy ticket) (pid user)) as [Hc|Hc]; simpl.
    + split; [intros _; split; [auto | intros H; congruence] | reflexivity].
    + split; [discriminate | intros [H _]; elim Hc; auto].
  - destruct (assignedTo ticket) as [a|]; simpl.
    + destruct (N.eqb_spec a (pid user)) as [Hc|Hc]; simpl.
      * split; [intros _; split; [contradiction | intros _; now subst] | reflexivity].
      * split; [discriminate | intros [_ H]; specialize (H Ha); congruence].
    + split; [discriminate | intros [_ H]; specialize (H Ha); discriminate].
  - split; [intros _; split; contradiction | reflexivity].
Qed.

Lemma accessDenied_mayAccess (user : Principal) (ticket : Ticket) (m : string) :
  knownRole user ->
  (accessDenied user ticket m = None <-> mayAccess user ticket).
Proof.
  intros Hrole. rewrite accessDenied_None. unfold mayAccess.
  destruct Hrole as [H|[H|H]]; rewrite H; split.
  - intros [Hc _]. right; left. auto.
  - intros [Hd|[[_ Hc]|[Hd _]]]; try discriminate. split; [auto | discriminate].
  - intros [_ Hc]. right; right. auto.
  - intros [Hd|[[Hd _]|[_ Hc]]]; try discriminate. split; [discriminate | auto].
  - intros _. now left.
  - intros _. split; discriminate.
Qed.

Lemma accessDenied_other_role (user : Principal) (ticket : Ticket) (m : string) :
  role user <> "user" -> role user <> "agent" ->
  accessDenied user ticket m = None.
Proof.
  intros Hu Ha. apply accessDenied_None. split; intros H; contradiction.
Qed.

Lemma getTicket_found (user : Principal) (i : Id) (db : Collection) (t : Ticket) :
  findById i db = Some t ->
  getTicket user i db =
  match accessDenied user t "Access denied. This ticket is not assigned to you." with
  | Some m => Forbidden403 m
  | None => Ok200 t
  end.
Proof. intros H. unfold getTicket. now rewrite H. Qed.

(** C3.  A request for an identifier that no ticket has is answered by
    not-found whatever the role; when the ticket exists and the principal
    has one of the three roles, the request succeeds exactly when the
    principal is an administrator, or a user who created the ticket, or an
    agent the ticket is assigned to, and is answered by access-denied
    exactly when that condition fails. *)
Theorem getTicket_access (user : Principal) (i : Id) (db : Collection) :
  (findById i db = None -> getTicket user i db = NotFound404 "Ticket not found")
  /\ (knownRole user ->
      forall t, findById i db = Some t ->
        (getTicket user i db = Ok200 t <-> mayAccess user t)
        /\ ((exists m, getTicket user i db = Forbidden403 m) <-> ~ mayAccess user t)).
Proof.
  split.
  - intros H. unfold getTicket. now rewrite H.
  - intros Hrole t Ht. rewrite (getTicket_found _ _ _ _ Ht).
    pose proof (accessDenied_mayAccess user t
      "Access denied. This ticket is not assigned to you." Hrole) as Hacc.
    destruct (accessDenied user t _) as [m|]; split; split.
    + discriminate.
    + intros H. apply Hacc in H. discriminate.
    + intros _ H. apply Hacc in H. discriminate.
    + intros _. now exists m.
    + intros _. now apply Hacc.
    + reflexivity.
    + intros [m H]. discriminate.
    + intros H. elim H. now apply Hacc.
Qed.

Lemma listQuery_other_role (user : Principal) :
  role user <> "user" -> role user <> "agent" -> listQuery user = [].
Proof.
  intros Hu Ha. unfold listQuery.
  destruct (String.eqb_spec (role user) "user"); [contradiction|].
  destruct (String.eqb_spec (role user) "agent"); [contradiction|].
  reflexivity.
Qed.

Lemma updateTicket_role_irrelevant (user user' : Principal) (i : Id)
    (body : Body) (db : Collection) (now1 now2 stamp : Date) :
  (forall t m, accessDenied user t m = accessDenied user' t m) ->
  updateTicket user i body db now1 now2 stamp =
  updateTicket user' i body db now1 now2 stamp.
Proof.
  intros H. unfold updateTicket.
  destruct (findById i db); [|reflexivity]. now rewrite H.
Qed.

Lemma addComment_role_irrelevant (user user' : Principal) (i : Id)
    (body : Body) (db : Collection) (stamp : Date) :
  pid user = pid user' ->
  (forall t m, accessDenied user t m = accessDenied user' t m) ->
  addComment user i body db stamp = addComment user' i body db stamp.
Proof.
  intros Hid H. unfold addComment.
  destruct (JS.not_ (b_text body) || _); [reflexivity|].
  destruct (findById i db); [|reflexivity]. now rewrite H, Hid.
Qed.

(** C9.  A principal whose role is none of user, agent and admin is treated
    as an administrator: the list is built with an empty filter and holds
    every ticket of the collection, the permission block of get, update and
    comment lets every ticket through, and these three handlers answer as
    they answer an administrator with the same identifier. *)
Theorem other_role_unrestricted (user : Principal) :
  role user <> "user" -> role user <> "agent" -> role user <> "admin" ->
  let root := mkPrincipal (pid user) "admin" in
  (forall db,
      listQuery user = []
      /\ getTickets user db = Ok200 (sortByCreatedAtDesc db)
      /\ Permutation db (sortByCreatedAtDesc db))
  /\ (forall t m, accessDenied user t m = None)
  /\ (forall i db t, findById i db = Some t -> getTicket user i db = Ok200 t)
  /\ (forall i db, getTicket user i db = getTicket root i db)
  /\ (forall i body db now1 now2 stamp,
        updateTicket user i body db now1 now2 stamp =
        updateTicket root i body db now1 now2 stamp)
  /\ (forall i body db stamp,
        addComment user i body db stamp = addComment root i body db stamp).
Proof.
  intros Hu Ha _ root.
  assert (Hfree : forall t m, accessDenied user t m = None)
    by (intros; now apply accessDenied_other_role).
  assert (Hroot : forall t m, accessDenied user t m = accessDenied root t m).
  { intros t m. rewrite Hfree. symmetry.
    apply accessDenied_other_role; discriminate. }
  repeat split.
  - now apply listQuery_other_role.
  - unfold getTickets. rewrite listQuery_other_role by assumption.
    now rewrite find_nil.
  - apply sortByCreatedAtDesc_perm.
  - exact Hfree.
  - intros i db t Ht. rewrite (getTicket_found _ _ _ _ Ht). now rewrite Hfree.
  - intros i db. unfold getTicket. destruct (findById i db); [|reflexivity].
    now rewrite Hroot.
  - intros. now apply updateTicket_role_irrelevant.
  - intros. now apply addComment_role_irrelevant.
Qed.

(** ** The SLA status *)

(** C5.  The derived status is completed for a resolved or closed ticket;
    for any other ticket it is breached when the deadline minus the time of
    the read is negative, warning when it is at least zero and less than two
    hours, and normal from two hours on. *)
Theorem slaStatus_cases (t : Ticket) (now : Date) :
  (status t = "resolved" \/ status t = "closed" -> slaStatus t now = completed)
  /\ (status t <> "resolved" -> status t <> "closed" ->
      (slaDeadline t - now < 0 -> slaStatus t now = breached)
      /\ (0 <= slaDeadline t - now < 7200000 -> slaStatus t now = warning)
      /\ (7200000 <= slaDeadline t - now -> slaStatus t now = normal)).
Proof.
  unfold slaStatus, twoHours. split.
  - intros [H|H]; rewrite H; reflexivity.
  - intros Hr Hc.
    destruct (String.eqb_spec (status t) "resolved"); [contradiction|].
    destruct (String.eqb_spec (status t) "closed"); [contradiction|].
    simpl.
    destruct (Z.ltb_spec (slaDeadline t - now) 0);
      destruct (Z.ltb_spec (slaDeadline t - now) 7200000);
      repeat split; intros; try reflexivity; lia.
Qed.

(** ** Creation *)

Lemma not_trimmed_nonempty (s : string) :
  (JS.trim s =? "")%string = false -> JS.not_ (Some s) = false.
Proof. destruct s; [discriminate | reflexivity]. Qed.

Lemma not_inEnum (s : string) (enum : list string) :
  inEnum "" enum = false -> inEnum s enum = true -> JS.not_ (Some s) = false.
Proof.
  intros H0 H. destruct s; [congruence | reflexivity].
Qed.

Lemma createTicket_valid (zone : JS.TimeZone) (user : Principal) (body : Body) (db : Collection)
    (now stamp : Date) :
  validDraft body = true ->
  createTicket zone user body db now stamp =
  (db ++ [draftDocument zone user body db now stamp],
   Created201 (Some (draftDocument zone user body db now stamp))).
Proof.
  unfold validDraft, createTicket, draftDocument.
  destruct (b_title body) as [t|]; [|discriminate].
  destruct (b_description body) as [d|]; [|discriminate].
  destruct (b_category body) as [c|]; [|discriminate].
  destruct (b_priority body) as [p|]; [|discriminate].
  intros H. apply andb_prop in H as [H Hp]. apply andb_prop in H as [H Hc].
  apply andb_prop in H as [Ht Hd].
  rewrite (not_trimmed_nonempty t), (not_trimmed_nonempty d),
    (not_inEnum c categoryEnum), (not_inEnum p priorityEnum);
    try reflexivity; try assumption.
  - simpl orb. cbv iota. unfold create, invalidPaths.
    cbn [newDocument title description status priority category orElse
         n_title n_description n_category n_priority].
    rewrite Ht, Hd, Hc, Hp. cbn [check app].
    change (inEnum "open" statusEnum) with true. cbn [check app].
    set (doc := newDocument _ _ _). change (_id doc) with (newId db).
    now rewrite findById_newId.
  - unfold validDescription in Hd. now apply negb_true_iff.
  - unfold validTitle in Ht. apply andb_prop in Ht as [Ht _].
    now apply negb_true_iff.
Qed.

Lemma check_nil (ok : bool) (path : string) : check ok path = [] -> ok = true.
Proof. destruct ok; [reflexivity | discriminate]. Qed.

Lemma createTicket_invalid (zone : JS.TimeZone) (user : Principal) (body : Body) (db : Collection)
    (now stamp : Date) :
  validDraft body = false ->
  exists m, createTicket zone user body db now stamp = (db, BadRequest400 m).
Proof.
  unfold validDraft, createTicket. intros H.
  destruct (JS.not_ (b_title body) || JS.not_ (b_description body)
            || JS.not_ (b_category body) || JS.not_ (b_priority body))
    eqn:Hnot; [eexists; reflexivity|].
  unfold create.
  destruct (invalidPaths _) as [|path paths] eqn:Hpaths;
    [exfalso | eexists; reflexivity].
  unfold invalidPaths in Hpaths.
  apply app_eq_nil in Hpaths as [Ht Hpaths].
  apply app_eq_nil in Hpaths as [Hd Hpaths].
  apply app_eq_nil in Hpaths as [_ Hpaths].
  apply app_eq_nil in Hpaths as [Hp Hc].
  apply check_nil in Ht, Hd, Hp, Hc.
  cbn [newDocument title description priority category
       n_title n_description n_category n_priority] in Ht, Hd, Hp, Hc.
  destruct (b_title body) as [t|]; [|discriminate].
  destruct (b_description body) as [d|]; [|now destruct (JS.not_ (Some t))].
  destruct (b_category body) as [c|];
    [|now destruct (JS.not_ (Some t)), (JS.not_ (Some d))].
  destruct (b_priority body) as [p|];
    [|now destruct (JS.not_ (Some t)), (JS.not_ (Some d)), (JS.not_ (Some c))].
  cbn [orElse] in Ht, Hd, Hp, Hc.
  rewrite Ht, Hd, Hp, Hc in H. discriminate.
Qed.

Lemma createTicket_sameDraft (zone : JS.TimeZone) (user : Principal) (body body' : Body)
    (db : Collection) (now stamp : Date) :
  sameDraft body body' ->
  createTicket zone user body' db now stamp = createTicket zone user body db now stamp.
Proof.
  intros (Ht & Hd & Hc & Hp). unfold createTicket.
  now rewrite Ht, Hd, Hc, Hp.
Qed.

(** C10.  The result of a creation depends on the title, description,
    category and priority of the draft alone; a valid draft is stored as a
    ticket with status open, no assignee, a null resolution time and no
    resolution date, whatever else the draft supplies, and any other draft
    is refused and stores nothing. *)
Theorem createTicket_ignores_other_fields (zone : JS.TimeZone) (user : Principal) (body : Body)
    (db : Collection) (now stamp : Date) :
  (forall body', sameDraft body body' ->
     createTicket zone user body' db now stamp = createTicket zone user body db now stamp)
  /\ (validDraft body = true ->
      exists t,
        createTicket zone user body db now stamp = (db ++ [t], Created201 (Some t))
        /\ status t = "open" /\ assignedTo t = None
        /\ resolutionTime t = None /\ resolvedAt t = None)
  /\ (validDraft body = false ->
      exists m, createTicket zone user body db now stamp = (db, BadRequest400 m)).
Proof.
  split; [|split].
  - intros body'. apply createTicket_sameDraft.
  - intros H. exists (draftDocument zone user body db now stamp).
    rewrite (createTicket_valid _ _ _ _ _ _ H). repeat split.
  - apply createTicket_invalid.
Qed.

(** C6, as the code has it.  The creation date of a created ticket is the
    time at which the store saves it.  Its deadline is computed from the
    time the handler reads: when the host's offset from UTC is the same at
    that time and 24 hours of local time later, the deadline is that time
    plus 24 hours, and it is the creation date plus 24 hours exactly when
    the handler's reading and the store's stamp are the same instant. *)
Theorem createTicket_slaDeadline (zone : JS.TimeZone) (user : Principal)
    (body : Body) (db : Collection) (now stamp : Date) :
  validDraft body = true ->
  exists t,
    createTicket zone user body db now stamp
    = (db ++ [t], Created201 (Some t))
    /\ createdAt t = stamp
    /\ (steadyOffset zone msPerDay now ->
        slaDeadline t = now + msPerDay
        /\ (slaDeadline t = createdAt t + msPerDay <-> now = stamp)).
Proof.
  intros H. exists (draftDocument zone user body db now stamp).
  rewrite (createTicket_valid _ _ _ _ _ _ H).
  split; [reflexivity|]. split; [reflexivity|].
  unfold steadyOffset, msPerDay. intros Hz.
  unfold draftDocument, newDocument, addHours, JS.localShift.
  cbn [slaDeadline createdAt n_slaDeadline].
  change (24 * (60 * 60 * 1000)) with 86400000. rewrite Hz.
  split; [|split]; lia.
Qed.

(** ** Update *)

Lemma lifecycle_validators (body : Body) (t : Ticket) (now1 now2 : Date) :
  invalidUpdatePaths (lifecycle body t now1 now2) = invalidUpdatePaths body.
Proof. unfold lifecycle. now destruct (beingResolved body t). Qed.

Lemma beingResolved_true (body : Body) (t : Ticket) :
  beingResolved body t = true <->
  b_status body = Some "resolved" /\ status t <> "resolved".
Proof.
  unfold beingResolved. destruct (b_status body) as [s|].
  - destruct (String.eqb_spec s "resolved") as [->|Hs];
      destruct (String.eqb_spec (status t) "resolved") as [Ht|Ht]; simpl;
      split; try discriminate; try tauto;
      try (intros [H _]; congruence); try (intros [_ H]; congruence).
  - split; [discriminate | intros [H _]; discriminate].
Qed.

Lemma applyUpdate_id (body : Body) (t : Ticket) (stamp : Date) :
  _id (applyUpdate body t stamp) = _id t.
Proof. reflexivity. Qed.

Lemma pushComment_id (c : Comment) (t : Ticket) (stamp : Date) :
  _id (pushComment c t stamp) = _id t.
Proof. reflexivity. Qed.

(** An authorised update with a valid patch is stored and answered by the
    updated ticket. *)
Lemma updateTicket_ok (user : Principal) (i : Id) (body : Body)
    (db : Collection) (now1 now2 stamp : Date) (t : Ticket) :
  findById i db = Some t ->
  accessDenied user t "Access denied. Ticket not assigned to you." = None ->
  invalidUpdatePaths body = [] ->
  let body' := lifecycle body t now1 now2 in
  updateTicket user i body db now1 now2 stamp =
  (replaceById i (fun x => applyUpdate body' x stamp) db,
   Ok200 (applyUpdate body' t stamp)).
Proof.
  intros Ht Hacc Hval body'. unfold updateTicket, findByIdAndUpdate.
  rewrite Ht, Hacc. fold body'. unfold body' at 1.
  rewrite lifecycle_validators, Hval.
  rewrite findById_replaceById by (intros; apply applyUpdate_id).
  now rewrite N.eqb_refl, Ht.
Qed.

(** Every other update leaves the collection as it is. *)
Lemma updateTicket_store (user : Principal) (i : Id) (body : Body)
    (db : Collection) (now1 now2 stamp : Date) :
  fst (updateTicket user i body db now1 now2 stamp) = db
  \/ exists t,
       findById i db = Some t
       /\ accessDenied user t "Access denied. Ticket not assigned to you." = None
       /\ invalidUpdatePaths body = [].
Proof.
  destruct (findById i db) as [t|] eqn:Ht.
  - destruct (accessDenied user t "Access denied. Ticket not assigned to you.")
      as [m|] eqn:Hacc.
    + left. unfold updateTicket. now rewrite Ht, Hacc.
    + destruct (invalidUpdatePaths body) as [|p ps] eqn:Hval.
      * right. now exists t.
      * left. unfold updateTicket, findByIdAndUpdate.
        now rewrite Ht, Hacc, lifecycle_validators, Hval.
  - left. unfold updateTicket. now rewrite Ht.
Qed.

(** What an update stores for a ticket of the collection. *)
Lemma updateTicket_stored (user : Principal) (i j : Id) (body : Body)
    (db : Collection) (now1 now2 stamp : Date) (t : Ticket) :
  findById j db = Some t ->
  exists t',
    findById j (fst (updateTicket user i body db now1 now2 stamp)) = Some t'
    /\ (t' = t \/ t' = applyUpdate (lifecycle body t now1 now2) t stamp).
Proof.
  intros Hj.
  destruct (updateTicket_store user i body db now1 now2 stamp)
    as [Hdb|(ti & Hi & Hacc & Hval)].
  - exists t. rewrite Hdb. auto.
  - rewrite (updateTicket_ok _ _ _ _ _ _ _ _ Hi Hacc Hval). cbn [fst].
    rewrite findById_replaceById by (intros; apply applyUpdate_id).
    destruct (N.eqb_spec j i) as [->|Hji].
    + rewrite Hi. rewrite Hj in Hi. injection Hi as <-.
      eexists; split; [reflexivity | now right].
    + exists t. auto.
Qed.

Lemma lifecycle_slaDeadline (body : Body) (t : Ticket) (now1 now2 : Date) :
  b_slaDeadline (lifecycle body t now1 now2) = b_slaDeadline body.
Proof. unfold lifecycle. now destruct (beingResolved body t). Qed.

Lemma lifecycle_createdBy (body : Body) (t : Ticket) (now1 now2 : Date) :
  b_createdBy (lifecycle body t now1 now2) = b_createdBy body.
Proof. unfold lifecycle. now destruct (beingResolved body t). Qed.

Lemma addComment_stored (user : Principal) (i j : Id) (body : Body)
    (db : Collection) (stamp : Date) (t : Ticket) :
  findById j db = Some t ->
  exists t',
    findById j (fst (addComment user i body db stamp)) = Some t'
    /\ (t' = t \/ exists c, t' = pushComment c t stamp).
Proof.
  intros Hj. unfold addComment.
  destruct (JS.not_ (b_text body) || _); [exists t; auto|].
  destruct (findById i db) as [ti|] eqn:Hi; [|exists t; auto].
  destruct (accessDenied user ti _); [exists t; auto|].
  destruct (invalidDocumentPaths _); [|exists t; auto]. cbn [fst].
  rewrite findById_replaceById by (intros; apply pushComment_id).
  destruct (N.eqb_spec j i) as [->|Hji].
  - rewrite Hj. eexists; split; [reflexivity|]. right. eexists; reflexivity.
  - exists t. auto.
Qed.

(** C2, as the code has it.  An update leaves the deadline (the creator) of
    every ticket as it was when the patch has no entry for it, whatever the
    outcome of the update, and the handler never adds either entry to the
    patch; a patch that has such an entry is handed to the store as it is,
    and an authorised update with a valid patch stores its value.  A comment
    leaves both fields of every ticket as they were. *)
Theorem update_keeps_slaDeadline_createdBy (user : Principal) (i j : Id)
    (body : Body) (db : Collection) (now1 now2 stamp : Date) (t : Ticket) :
  findById j db = Some t ->
  (exists t',
     findById j (fst (updateTicket user i body db now1 now2 stamp)) = Some t'
     /\ (b_slaDeadline body = None -> slaDeadline t' = slaDeadline t)
     /\ (b_createdBy body = None -> createdBy t' = createdBy t)
     /\ (j = i ->
         accessDenied user t "Access denied. Ticket not assigned to you." = None ->
         invalidUpdatePaths body = [] ->
         (forall d, b_slaDeadline body = Some d -> slaDeadline t' = d)
         /\ (forall u, b_createdBy body = Some u -> createdBy t' = u)))
  /\ (exists t',
        findById j (fst (addComment user i body db stamp)) = Some t'
        /\ slaDeadline t' = slaDeadline t /\ createdBy t' = createdBy t).
Proof.
  intros Hj. split.
  - destruct (updateTicket_stored user i j body db now1 now2 stamp t Hj)
      as (t' & Ht' & Hcase).
    exists t'. split; [exact Ht'|]. split; [|split].
    + destruct Hcase as [->| ->]; [reflexivity|].
      cbn [applyUpdate slaDeadline]. rewrite lifecycle_slaDeadline.
      now intros ->.
    + destruct Hcase as [->| ->]; [reflexivity|].
      cbn [applyUpdate createdBy]. rewrite lifecycle_createdBy.
      now intros ->.
    + intros -> Hacc Hval.
      rewrite (updateTicket_ok _ _ _ _ _ _ _ _ Hj Hacc Hval) in Ht'.
      cbn [fst] in Ht'.
      rewrite findById_replaceById, N.eqb_refl, Hj in Ht'
        by (intros; apply applyUpdate_id).
      injection Ht' as <-. cbn [applyUpdate slaDeadline createdBy].
      rewrite lifecycle_slaDeadline, lifecycle_createdBy.
      split; intros ? ->; reflexivity.
  - destruct (addComment_stored user i j body db stamp t Hj)
      as (t' & Ht' & [->|[c ->]]); eexists; (split; [exact Ht'|]); now split.
Qed.

(** The handler reads the clock twice when it resolves a ticket: the first
    reading is the resolution date, and the resolution time is counted up to
    the second. *)
Lemma resolving_update_reads_clock_twice (user : Principal) (i : Id)
    (body : Body) (db : Collection) (now1 now2 stamp : Date) (t : Ticket) :
  findById i db = Some t ->
  accessDenied user t "Access denied. Ticket not assigned to you." = None ->
  invalidUpdatePaths body = [] ->
  b_status body = Some "resolved" -> status t <> "resolved" ->
  exists db' t',
    updateTicket user i body db now1 now2 stamp = (db', Ok200 t')
    /\ resolvedAt t' = Some now1
    /\ resolutionTime t' = Some (minutesBetween (createdAt t) now2).
Proof.
  intros Ht Hacc Hval Hs Hns.
  rewrite (updateTicket_ok _ _ _ _ _ _ _ _ Ht Hacc Hval).
  do 2 eexists. split; [reflexivity|].
  assert (Hb : beingResolved body t = true) by (now apply beingResolved_true).
  unfold lifecycle. rewrite Hb. split; reflexivity.
Qed.

(** C4, as the code has it.  An authorised update with a valid patch is
    stored.  When the patch sets the status to resolved and the stored status
    is not resolved, the updated ticket has the time the handler reads as
    its resolution date and, when the handler reads the same time again for
    the resolution time, the rounded number of minutes from the stored
    creation date to the resolution date as its resolution time, whatever
    the patch holds for these two fields.  In any other case each of the two
    fields keeps its stored value when the patch has no entry for it, and
    takes the value of the patch when it has one. *)
Theorem updateTicket_resolution (user : Principal) (i : Id) (body : Body)
    (db : Collection) (now1 now2 stamp : Date) (t : Ticket) :
  findById i db = Some t ->
  accessDenied user t "Access denied. Ticket not assigned to you." = None ->
  invalidUpdatePaths body = [] ->
  exists db' t',
    updateTicket user i body db now1 now2 stamp = (db', Ok200 t')
    /\ findById i db' = Some t'
    /\ (b_status body = Some "resolved" -> status t <> "resolved" ->
        resolvedAt t' = Some now1
        /\ (now2 = now1 ->
            resolutionTime t' =
            Some (JS.Math_round
                    (inject_Z (now1 - createdAt t) / inject_Z 60000)%Q)))
    /\ (~ (b_status body = Some "resolved" /\ status t <> "resolved") ->
        (b_resolvedAt body = None -> resolvedAt t' = resolvedAt t)
        /\ (b_resolutionTime body = None -> resolutionTime t' = resolutionTime t)
        /\ (forall v, b_resolvedAt body = Some v -> resolvedAt t' = v)
        /\ (forall v, b_resolutionTime body = Some v -> resolutionTime t' = v)).
Proof.
  intros Ht Hacc Hval.
  rewrite (updateTicket_ok _ _ _ _ _ _ _ _ Ht Hacc Hval).
  do 2 eexists. split; [reflexivity|]. split.
  - rewrite findById_replaceById by (intros; apply applyUpdate_id).
    now rewrite N.eqb_refl, Ht.
  - unfold lifecycle. split.
    + intros Hs Hns.
      assert (Hb : beingResolved body t = true)
        by (now apply beingResolved_true).
      rewrite Hb. cbn. split; [reflexivity|]. now intros ->.
    + intros Hn.
      destruct (beingResolved body t) eqn:Hb;
        [apply beingResolved_true in Hb; contradiction|].
      cbn. repeat split; now intros; subst;
        match goal with H : _ = _ |- _ => rewrite H end.
Qed.

(** C8, as the code has it.  A valid draft is stored as a ticket with status
    open.  An authorised update with a valid patch that sets the status to
    the stored status and has no entry for the resolution date or the
    resolution time is stored and leaves the status, the resolution date and
    the resolution time as they were. *)
Theorem create_open_update_same_status :
  (forall zone user body db now stamp,
      validDraft body = true ->
      exists t,
        createTicket zone user body db now stamp = (db ++ [t], Created201 (Some t))
        /\ status t = "open")
  /\ (forall user i body db now1 now2 stamp t,
        findById i db = Some t ->
        accessDenied user t "Access denied. Ticket not assigned to you." = None ->
        invalidUpdatePaths body = [] ->
        b_status body = Some (status t) ->
        b_resolvedAt body = None ->
        b_resolutionTime body = None ->
        exists db' t',
          updateTicket user i body db now1 now2 stamp = (db', Ok200 t')
          /\ findById i db' = Some t'
          /\ status t' = status t
          /\ resolvedAt t' = resolvedAt t
          /\ resolutionTime t' = resolutionTime t).
Proof.
  split.
  - intros zone user body db now stamp H.
    exists (draftDocument zone user body db now stamp).
    now rewrite (createTicket_valid _ _ _ _ _ _ H).
  - intros user i body db now1 now2 stamp t Ht Hacc Hval Hs Hra Hrt.
    rewrite (updateTicket_ok _ _ _ _ _ _ _ _ Ht Hacc Hval).
    do 2 eexists. split; [reflexivity|]. split.
    + rewrite findById_replaceById by (intros; apply applyUpdate_id).
      now rewrite N.eqb_refl, Ht.
    + assert (Hb : beingResolved body t = false).
      { destruct (beingResolved body t) eqn:Hb; [|reflexivity].
        apply beingResolved_true in Hb as [Hb Hn]. congruence. }
      unfold lifecycle. rewrite Hb. cbn. now rewrite Hs, Hra, Hrt.
Qed.

(** ** The dashboard *)

Lemma find_statsQueryOf (user : Principal) (db : Collection) :
  find (statsQueryOf user) db = reportScope user db.
Proof.
  unfold statsQueryOf, reportScope, find.
  destruct (role user =? "agent")%string; apply filter_ext; intros t.
  - unfold matches, assignedToUser. simpl. now rewrite andb_true_r.
  - reflexivity.
Qed.

Lemma find_assignedTo (user : Principal) (db : Collection) :
  find [assignedTo_is (pid user)] db = filter (assignedToUser user) db.
Proof.
  unfold find. apply filter_ext. intros t.
  unfold matches, assignedToUser. simpl. now rewrite andb_true_r.
Qed.

Lemma sumResolutionTime_acc (l : list Ticket) (a : Z) :
  fold_left (fun acc ticket => acc + orElse (resolutionTime ticket) 0) l a =
  a + sumResolutionTime l.
Proof.
  unfold sumResolutionTime. revert a.
  induction l as [|t l IH]; intros a; simpl; [lia|].
  rewrite IH, (IH (orElse _ _)). lia.
Qed.

Lemma sumResolutionTime_cons (t : Ticket) (l : list Ticket) :
  sumResolutionTime (t :: l) =
  orElse (resolutionTime t) 0 + sumResolutionTime l.
Proof.
  unfold sumResolutionTime at 1. simpl. apply sumResolutionTime_acc.
Qed.

Lemma resolved_with_time (scope : list Ticket) :
  let l := find [status_is "resolved"; resolutionTime_ne_null_gt_0] scope in
  sumResolutionTime l = sumZ (qualifyingTimes scope)
  /\ List.length l = List.length (qualifyingTimes scope).
Proof.
  induction scope as [|t scope [IHs IHl]]; simpl; [split; reflexivity|].
  unfold matches; simpl.
  destruct (resolutionTime t) as [r|] eqn:Hr;
    destruct (status t =? "resolved")%string; simpl;
    try (split; assumption).
  destruct (0 <? r); simpl; [|split; assumption].
  rewrite sumResolutionTime_cons, Hr. simpl. split; [|congruence].
  fold (find [status_is "resolved"; resolutionTime_ne_null_gt_0] scope).
  lia.
Qed.

Lemma avgResolutionTime_computeStats (zone : JS.TimeZone) (user : Principal) (db : Collection)
    (now1 now2 : Date) :
  let times := qualifyingTimes (reportScope user db) in
  avgResolutionTime (computeStats zone (statsQueryOf user) db now1 now2) =
  match times with
  | [] => 0
  | _ => JS.Math_round (mean times)
  end.
Proof.
  intros times. unfold computeStats.
  destruct (slaCounters _) as [compliant total].
  destruct (slaBreakdown _ _) as [[n w] b]. cbn [avgResolutionTime].
  rewrite find_app, find_statsQueryOf.
  destruct (resolved_with_time (reportScope user db)) as [Hs Hl].
  unfold meanResolutionTime, mean. rewrite Hs, Hl. fold times.
  destruct times; reflexivity.
Qed.

(** C7, as the code has it.  The reported average is 0 when no ticket in
    scope is resolved with a present, positive resolution time; otherwise it
    is the mean of these resolution times rounded to the nearest integer, a
    tie going up: it lies within one half of the mean and equals the mean
    exactly when the mean is an integer. *)
Theorem avgResolutionTime_rounded_mean (zone : JS.TimeZone) (user : Principal) (db : Collection)
    (now1 now2 : Date) :
  exists r,
    getDashboardStats zone user db now1 now2 = Ok200 r
    /\ let times := qualifyingTimes (reportScope user db) in
       (times = [] -> avgResolutionTime r = 0)
       /\ (times <> [] ->
           avgResolutionTime r = JS.Math_round (mean times)
           /\ (inject_Z (avgResolutionTime r) <= mean times + (1 # 2))%Q
           /\ (mean times + (1 # 2) < inject_Z (avgResolutionTime r) + 1)%Q
           /\ forall k, (mean times == inject_Z k)%Q -> avgResolutionTime r = k).
Proof.
  eexists. split; [reflexivity|]. intros times.
  rewrite avgResolutionTime_computeStats. fold times.
  split; [now intros ->|]. intros Hne.
  destruct times as [|x l] eqn:E; [contradiction|]. rewrite <- E.
  destruct (Math_round_nearest (mean times)) as [Hle Hlt].
  repeat split.
  - exact Hle.
  - now rewrite inject_Z_plus in Hlt.
  - intros k Hk. rewrite (Math_round_comp _ _ Hk). apply Math_round_Z.
Qed.

Lemma aggregate_identifier_filter (q : Query) (key : Ticket -> string)
    (db : Collection) :
  (exists u, In (assignedTo_is u) q \/ In (createdBy_is u) q) ->
  aggregate q key db = [].
Proof.
  intros [u Hu]. unfold aggregate.
  replace (filter (matchesUncast q) db) with (@nil Ticket); [reflexivity|].
  symmetry. induction db as [|t db IH]; [reflexivity|]. simpl.
  assert (Hf : matchesUncast q t = false).
  { unfold matchesUncast. apply not_true_is_false. intros H.
    rewrite forallb_forall in H.
    destruct Hu as [Hu|Hu]; discriminate (H _ Hu). }
  now rewrite Hf.
Qed.

(** C1.  The handler answers an agent with a report whose total is the
    number of tickets assigned to the agent, but whose three distributions
    are empty: the [$match] stage of the aggregations compares the string of
    the agent's identifier with the stored identifiers and selects nothing.
    So the distributions are not those of the assigned tickets as soon as
    the agent has one. *)
Theorem agent_report_has_no_distributions (zone : JS.TimeZone)
    (user : Principal) (db : Collection) (now1 now2 : Date) :
  role user = "agent" ->
  let assigned := filter (assignedToUser user) db in
  exists r,
    getDashboardStats zone user db now1 now2 = Ok200 r
    /\ totalTickets r = Z.of_nat (List.length assigned)
    /\ priorityStats r = [] /\ categoryStats r = [] /\ statusStats r = []
    /\ (assigned <> [] ->
        ~ exactDistribution priority assigned (priorityStats r)
        /\ ~ exactDistribution category assigned (categoryStats r)
        /\ ~ exactDistribution status assigned (statusStats r)).
Proof.
  intros Hrole assigned. eexists. split; [reflexivity|].
  unfold computeStats, statsQueryOf. rewrite Hrole.
  cbn [String.eqb Ascii.eqb Bool.eqb].
  destruct (slaCounters _) as [compliant total].
  destruct (slaBreakdown _ _) as [[n w] b].
  cbn [totalTickets priorityStats categoryStats statusStats].
  unfold countDocuments. rewrite find_assignedTo.
  split; [reflexivity|].
  rewrite !aggregate_identifier_filter
    by (exists (pid user); left; now left).
  split; [reflexivity|]. split; [reflexivity|]. split; [reflexivity|].
  intros Hne.
  assert (Hno : forall key, ~ exactDistribution key assigned []).
  { intros key (_ & Hsum & _). cbn in Hsum.
    destruct assigned; [contradiction | discriminate]. }
  repeat split; apply Hno.
Qed.

(** ** Scenarios *)

(** Scenario E: an agent with three assigned tickets, one resolved in 30
    minutes and two open. *)
Example scenario_E :
  exists r,
    dashboardStats "forbidden" Sample.utc Sample.agentG Sample.store 0 0 = Ok200 r
    /\ avgResolutionTime r = 30 /\ totalTickets r = 3 /\ openTickets r = 2.
Proof. eexists. split; [reflexivity|]. repeat split. Qed.

(** A patch whose comment has no author and an empty text is refused, and
    nothing of it is stored. *)
Example update_refuses_comment_without_text :
  updateTicket Sample.root 1
    (mkBody None None None None (Some "resolved") None None (Some 0)
       (Some [mkCommentInput None (Some "") None]) None None None None)
    Sample.store 5 5 5
  = (Sample.store,
     BadRequest400 (ValidationFailed ["comments.0.user"; "comments.0.text"])).
Proof. reflexivity. Qed.

(** Scenario D: an agent who is not assigned to the ticket cannot comment. *)
Example scenario_D :
  exists m,
    addComment Sample.agentG2 1 (Sample.withText "hello") Sample.store 5
    = (Sample.store, Forbidden403 m).
Proof. eexists. reflexivity. Qed.

Lemma agent_report_has_no_distributions_witness :
  role Sample.agentG = "agent"
  /\ exists r,
       getDashboardStats Sample.utc Sample.agentG Sample.store 0 0 = Ok200 r
       /\ totalTickets r = 3
       /\ priorityStats r = [] /\ categoryStats r = [] /\ statusStats r = []
       /\ ~ exactDistribution status
             (filter (assignedToUser Sample.agentG) Sample.store)
             (statusStats r).
Proof.
  split; [reflexivity|].
  destruct (agent_report_has_no_distributions Sample.utc Sample.agentG
              Sample.store 0 0 eq_refl) as (r & Hr & Ht & Hp & Hc & Hs & Hd).
  exists r. split; [exact Hr|]. split; [exact Ht|].
  split; [exact Hp|]. split; [exact Hc|]. split; [exact Hs|].
  apply Hd. discriminate.
Defined.

Lemma update_keeps_slaDeadline_createdBy_witness :
  findById 1 Sample.store = Some Sample.ticket1
  /\ exists t',
       findById 1
         (fst (updateTicket Sample.agentG 1 (Sample.withStatus "pending")
                 Sample.store 5 5 5)) = Some t'
       /\ (b_slaDeadline (Sample.withStatus "pending") = None ->
           slaDeadline t' = slaDeadline Sample.ticket1)
       /\ (b_createdBy (Sample.withStatus "pending") = None ->
           createdBy t' = createdBy Sample.ticket1).
Proof.
  split; [reflexivity|].
  destruct (update_keeps_slaDeadline_createdBy Sample.agentG 1 1
              (Sample.withStatus "pending") Sample.store 5 5 5 Sample.ticket1
              eq_refl) as [(t' & Ht' & Hd & Hc & _) _].
  exists t'. auto.
Defined.

Lemma getTicket_access_witness :
  knownRole Sample.stranger
  /\ findById 1 Sample.store = Some Sample.ticket1
  /\ ((exists m, getTicket Sample.stranger 1 Sample.store = Forbidden403 m)
      <-> ~ mayAccess Sample.stranger Sample.ticket1)
  /\ (getTicket Sample.creator 1 Sample.store = Ok200 Sample.ticket1
      <-> mayAccess Sample.creator Sample.ticket1).
Proof.
  split; [left; reflexivity|]. split; [reflexivity|]. split.
  - apply (proj2 (getTicket_access Sample.stranger 1 Sample.store)
             (or_introl eq_refl) Sample.ticket1 eq_refl).
  - apply (proj2 (getTicket_access Sample.creator 1 Sample.store)
             (or_introl eq_refl) Sample.ticket1 eq_refl).
Defined.

Lemma updateTicket_resolution_witness :
  findById 1 Sample.store = Some Sample.ticket1
  /\ exists db' t',
       updateTicket Sample.agentG 1 (Sample.withStatus "resolved")
         Sample.store 1800000 1800000 1800001 = (db', Ok200 t')
       /\ resolvedAt t' = Some 1800000
       /\ resolutionTime t' =
          Some (JS.Math_round
                  (inject_Z (1800000 - createdAt Sample.ticket1)
                   / inject_Z 60000)%Q).
Proof.
  split; [reflexivity|].
  destruct (updateTicket_resolution Sample.agentG 1
              (Sample.withStatus "resolved") Sample.store
              1800000 1800000 1800001 Sample.ticket1 eq_refl eq_refl eq_refl)
    as (db' & t' & Hr & _ & Hres & _).
  exists db', t'. split; [exact Hr|].
  destruct (Hres eq_refl) as (Ha & Ht); [discriminate|].
  split; [exact Ha | exact (Ht eq_refl)].
Defined.

Lemma slaStatus_cases_witness :
  slaStatus Sample.ticket1 (25 * Sample.hour) = breached
  /\ slaStatus Sample.ticket1 (45 * Sample.hour / 2) = warning
  /\ slaStatus Sample.ticket1 (1 * Sample.hour) = normal
  /\ slaStatus Sample.ticket2 (25 * Sample.hour) = completed.
Proof.
  split; [|split; [|split]].
  - apply (slaStatus_cases Sample.ticket1 (25 * Sample.hour));
      [discriminate | discriminate | reflexivity].
  - apply (slaStatus_cases Sample.ticket1 (45 * Sample.hour / 2));
      [discriminate | discriminate | split; [discriminate | reflexivity]].
  - apply (slaStatus_cases Sample.ticket1 (1 * Sample.hour));
      [discriminate | discriminate | discriminate].
  - apply (slaStatus_cases Sample.ticket2 (25 * Sample.hour)).
    left; reflexivity.
Defined.

Lemma createTicket_slaDeadline_witness :
  validDraft Sample.draft = true
  /\ steadyOffset Sample.utc msPerDay 1000
  /\ exists t,
       createTicket Sample.utc Sample.creator Sample.draft Sample.store
         1000 1000 = (Sample.store ++ [t], Created201 (Some t))
       /\ createdAt t = 1000
       /\ slaDeadline t = 1000 + msPerDay.
Proof.
  split; [reflexivity|]. split; [reflexivity|].
  destruct (createTicket_slaDeadline Sample.utc Sample.creator Sample.draft
              Sample.store 1000 1000 eq_refl) as (t & Hc & Hs & Hd).
  exists t. split; [exact Hc|]. split; [exact Hs|].
  exact (proj1 (Hd eq_refl)).
Defined.

Lemma avgResolutionTime_rounded_mean_witness :
  exists r,
    getDashboardStats Sample.utc Sample.root Sample.store 0 0 = Ok200 r
    /\ avgResolutionTime r
       = JS.Math_round
           (mean (qualifyingTimes (reportScope Sample.root Sample.store))).
Proof.
  destruct (avgResolutionTime_rounded_mean Sample.utc Sample.root Sample.store 0 0)
    as (r & Hr & _ & Hmean).
  exists r. split; [exact Hr|].
  destruct Hmean as [Hm _]; [vm_compute; discriminate | exact Hm].
Defined.

Lemma create_open_update_same_status_witness :
  validDraft Sample.draft = true
  /\ (exists t,
        createTicket Sample.utc Sample.creator Sample.draft Sample.store 1000 1001
        = (Sample.store ++ [t], Created201 (Some t))
        /\ status t = "open")
  /\ findById 2 Sample.store = Some Sample.ticket2
  /\ exists db' t',
       updateTicket Sample.agentG 2 (Sample.withStatus "resolved")
         Sample.store 9000000 9000000 9000000 = (db', Ok200 t')
       /\ resolvedAt t' = resolvedAt Sample.ticket2
       /\ resolutionTime t' = resolutionTime Sample.ticket2.
Proof.
  destruct create_open_update_same_status as [Hcreate Hupdate].
  split; [reflexivity|]. split.
  - apply Hcreate. reflexivity.
  - split; [reflexivity|].
    destruct (Hupdate Sample.agentG 2%N (Sample.withStatus "resolved")
                Sample.store 9000000 9000000 9000000 Sample.ticket2
                eq_refl eq_refl eq_refl eq_refl eq_refl eq_refl)
      as (db' & t' & Hr & _ & _ & Ha & Ht).
    exists db', t'. auto.
Defined.

Lemma other_role_unrestricted_witness :
  role Sample.manager <> "user" /\ role Sample.manager <> "agent"
  /\ role Sample.manager <> "admin"
  /\ getTickets Sample.manager Sample.store
     = Ok200 (sortByCreatedAtDesc Sample.store)
  /\ getTicket Sample.manager 6 Sample.store = Ok200 Sample.ticket6.
Proof.
  assert (Hu : role Sample.manager <> "user") by discriminate.
  assert (Ha : role Sample.manager <> "agent") by discriminate.
  assert (Hr : role Sample.manager <> "admin") by discriminate.
  destruct (other_role_unrestricted Sample.manager Hu Ha Hr)
    as (Hlist & _ & Hget & _).
  split; [exact Hu|]. split; [exact Ha|]. split; [exact Hr|]. split.
  - apply Hlist.
  - apply Hget. reflexivity.
Defined.

Lemma createTicket_ignores_other_fields_witness :
  validDraft Sample.draft = true
  /\ exists t,
       createTicket Sample.utc Sample.creator Sample.draft Sample.store 1000 1001
       = (Sample.store ++ [t], Created201 (Some t))
       /\ status t = "open" /\ assignedTo t = None
       /\ resolutionTime t = None /\ resolvedAt t = None.
Proof.
  split; [reflexivity|].
  apply (createTicket_ignores_other_fields Sample.utc Sample.creator Sample.draft
           Sample.store 1000 1001).
  reflexivity.
Defined.

(** ** Where the code departs from the statements *)

(** An administrator's patch that carries a deadline and a creator is
    written through: the updated ticket has both. *)
Lemma update_overwrites_slaDeadline :
  ~ (forall user i body db now1 now2 stamp t db' t',
       findById i db = Some t ->
       updateTicket user i body db now1 now2 stamp = (db', Ok200 t') ->
       slaDeadline t' = slaDeadline t /\ createdBy t' = createdBy t).
Proof.
  intros H.
  destruct (H Sample.root 1%N (Sample.withDeadline 0 4) Sample.store 5 5 5
              _ _ _ eq_refl eq_refl) as [Hd _].
  discriminate Hd.
Qed.

(** With the handler's clock read at 89 999 ms and then at 90 000 ms after
    the creation, the resolution date gives 1 minute and the stored
    resolution time is 2; and a patch that only carries a resolution time
    replaces the stored one. *)
Lemma update_resolution_as_stated_fails :
  ~ (forall user i body db now1 now2 stamp t db' t',
       findById i db = Some t ->
       b_status body = Some "resolved" -> status t <> "resolved" ->
       updateTicket user i body db now1 now2 stamp = (db', Ok200 t') ->
       exists r,
         resolvedAt t' = Some r
         /\ resolutionTime t' =
            Some (JS.Math_round
                    (inject_Z (r - createdAt t) / inject_Z 60000)%Q))
  /\ ~ (forall user i body db now1 now2 stamp t db' t',
          findById i db = Some t ->
          ~ (b_status body = Some "resolved" /\ status t <> "resolved") ->
          updateTicket user i body db now1 now2 stamp = (db', Ok200 t') ->
          resolvedAt t' = resolvedAt t
          /\ resolutionTime t' = resolutionTime t).
Proof.
  split; intros H.
  - assert (Hn : status Sample.ticket1 <> "resolved") by discriminate.
    destruct (H Sample.agentG 1%N (Sample.withStatus "resolved") Sample.store
                89999 90000 90000 _ _ _ eq_refl eq_refl Hn eq_refl)
      as (r & Hr & Ht).
    injection Hr as <-. vm_compute in Ht. discriminate Ht.
  - assert (Hn : ~ (b_status (Sample.withResolutionTime None 5)
                    = Some "resolved"
                    /\ status Sample.ticket1 <> "resolved"))
      by (intros [Hs _]; discriminate Hs).
    destruct (H Sample.agentG 1%N (Sample.withResolutionTime None 5)
                Sample.store 5 5 5 _ _ _ eq_refl Hn eq_refl) as [_ Ht].
    discriminate Ht.
Qed.

(** On a host on UTC, a ticket saved one millisecond after the handler has
    read the clock has its deadline one millisecond short of its creation
    date plus a day; and on a host whose daylight saving time ends within
    the day, a ticket saved at the very time the handler reads has its
    deadline 25 hours after its creation date. *)
Lemma create_deadline_not_createdAt_plus_day :
  ~ (forall user body db now stamp db' t,
       createTicket Sample.utc user body db now stamp
       = (db', Created201 (Some t)) ->
       slaDeadline t = createdAt t + msPerDay)
  /\ ~ (forall zone user body db now db' t,
          createTicket zone user body db now now
          = (db', Created201 (Some t)) ->
          slaDeadline t = createdAt t + msPerDay).
Proof.
  split; intros H.
  - specialize (H Sample.creator Sample.draft Sample.store 1000 1001 _ _
                  eq_refl).
    discriminate H.
  - specialize (H Sample.summer Sample.creator Sample.draft Sample.store 0
                  _ _ eq_refl).
    discriminate H.
Qed.

(** The agent of the sample collection has three assigned tickets, all of
    priority high; the report lists no priority at all. *)
Lemma agent_distributions_not_over_assigned :
  ~ (forall zone user db now1 now2,
       role user = "agent" ->
       exists r,
         getDashboardStats zone user db now1 now2 = Ok200 r
         /\ exactDistribution priority (filter (assignedToUser user) db)
              (priorityStats r))
  /\ filter (assignedToUser Sample.agentG) Sample.store
     = [Sample.ticket1; Sample.ticket2; Sample.ticket3]
  /\ priorityStats
       (computeStats Sample.utc (statsQueryOf Sample.agentG) Sample.store 0 0)
     = [].
Proof.
  split; [|split; reflexivity]. intros H.
  destruct (H Sample.utc Sample.agentG Sample.store 0 0 eq_refl)
    as (r & Hr & _ & Hsum & _).
  injection Hr as <-. discriminate Hsum.
Qed.

(** Two resolved tickets with resolution times 1 and 2: the mean is 3/2 and
    the report says 2. *)
Lemma avgResolutionTime_not_mean :
  ~ (forall zone user db now1 now2 r,
       getDashboardStats zone user db now1 now2 = Ok200 r ->
       let times := qualifyingTimes (reportScope user db) in
       (times <> [] -> (inject_Z (avgResolutionTime r) == mean times)%Q)
       /\ (times = [] -> avgResolutionTime r = 0)).
Proof.
  intros H.
  destruct (H Sample.utc Sample.agentG2 Sample.store 0 0 _ eq_refl)
    as [Hm _].
  assert (E : (inject_Z 2 == 3 # 2)%Q) by (apply Hm; discriminate).
  discriminate E.
Qed.

(** A patch that repeats the stored status and carries a resolution time
    replaces the stored resolution time. *)
Lemma update_same_status_changes_resolutionTime :
  ~ ((forall zone user body db now stamp,
        validDraft body = true ->
        exists t,
          createTicket zone user body db now stamp = (db ++ [t], Created201 (Some t))
          /\ status t = "open")
     /\ (forall user i body db now1 now2 stamp t db' t',
           findById i db = Some t ->
           accessDenied user t "Access denied. Ticket not assigned to you."
           = None ->
           b_status body = Some (status t) ->
           updateTicket user i body db now1 now2 stamp = (db', Ok200 t') ->
           resolvedAt t' = resolvedAt t
           /\ resolutionTime t' = resolutionTime t)).
Proof.
  intros [_ H].
  destruct (H Sample.agentG 2%N (Sample.withResolutionTime (Some "resolved") 7)
              Sample.store 5 5 5 _ _ _ eq_refl eq_refl eq_refl eq_refl)
    as [_ Ht].
  discriminate Ht.
Qed.

(** * Further properties of the handlers *)

(** ** The collection under the handlers *)

Lemma replaceById_identities (i : Id) (f : Ticket -> Ticket) (db : Collection) :
  (forall t, _id (f t) = _id t /\ createdAt (f t) = createdAt t) ->
  identities (replaceById i f db) = identities db.
Proof.
  intros Hf. unfold identities.
  induction db as [|t db IH]; simpl; [reflexivity|].
  destruct (_id t =? i)%N; simpl.
  - destruct (Hf t) as [-> ->]. reflexivity.
  - now rewrite IH.
Qed.

Lemma findById_None_notIn (i : Id) (db : Collection) :
  findById i db = None <-> ~ In i (map _id db).
Proof.
  unfold findById. induction db as [|t db IH]; simpl.
  - split; [intros _ [] | reflexivity].
  - destruct (N.eqb_spec (_id t) i) as [E|E].
    + split; [discriminate | intros H; elim H; now left].
    + rewrite IH. split.
      * intros H [H'|H']; [contradiction | now apply H].
      * intros H H'. apply H. now right.
Qed.

Lemma newId_fresh (db : Collection) : ~ In (newId db) (map _id db).
Proof.
  assert (H : forall i, In i (map _id db) -> (i <= maxId db)%N).
  { induction db as [|t db IH]; simpl; [intros i []|].
    intros i [<-|Hi]; [lia|]. specialize (IH i Hi). lia. }
  intros Hin. apply H in Hin. unfold newId in Hin. lia.
Qed.

Lemma addComment_store (user : Principal) (i : Id) (body : Body)
    (db : Collection) (stamp : Date) :
  (fst (addComment user i body db stamp) = db
   /\ isSuccess (snd (addComment user i body db stamp)) = false)
  \/ exists s t,
       b_text body = Some s /\ JS.trim s <> ""
       /\ findById i db = Some t
       /\ accessDenied user t "Access denied. Ticket not assigned to you." = None
       /\ let c := mkComment (pid user) (JS.trim s)
                     (JS.orFalse (b_isInternal body)) stamp in
          invalidDocumentPaths (pushComment c t stamp) = []
          /\ addComment user i body db stamp =
             (replaceById i (fun x => pushComment c x stamp) db,
              Ok200 (Some (pushComment c t stamp))).
Proof.
  unfold addComment.
  destruct (b_text body) as [s|]; cbn [JS.not_ orElse orb]; [|now left].
  destruct (String.eqb_spec s "") as [->|Hs]; cbn [orb]; [now left|].
  destruct (String.eqb_spec (JS.trim s) "") as [E|E]; [now left|].
  destruct (findById i db) as [t|] eqn:Ht; [|now left].
  destruct (accessDenied user t _) eqn:Hacc; [now left|].
  destruct (invalidDocumentPaths _) eqn:Hdoc; [|now left].
  right. exists s, t. repeat split; try assumption.
  rewrite findById_replaceById by (intros; apply pushComment_id).
  now rewrite N.eqb_refl, Ht.
Qed.

Lemma updateTicket_refused (user : Principal) (i : Id) (body : Body)
    (db : Collection) (now1 now2 stamp : Date) :
  isSuccess (snd (updateTicket user i body db now1 now2 stamp)) = false ->
  fst (updateTicket user i body db now1 now2 stamp) = db.
Proof.
  intros H.
  destruct (updateTicket_store user i body db now1 now2 stamp)
    as [Hdb|(t & Ht & Hacc & Hval)]; [exact Hdb|].
  rewrite (updateTicket_ok _ _ _ _ _ _ _ _ Ht Hacc Hval) in H. discriminate.
Qed.

Lemma createTicket_cases (zone : JS.TimeZone) (user : Principal) (body : Body) (db : Collection)
    (now stamp : Date) :
  (validDraft body = true
   /\ createTicket zone user body db now stamp =
      (db ++ [draftDocument zone user body db now stamp],
       Created201 (Some (draftDocument zone user body db now stamp))))
  \/ (validDraft body = false
      /\ exists m, createTicket zone user body db now stamp = (db, BadRequest400 m)).
Proof.
  destruct (validDraft body) eqn:H.
  - left. split; [reflexivity|]. now apply createTicket_valid.
  - right. split; [reflexivity|]. now apply createTicket_invalid.
Qed.

(** X1.  No handler removes, duplicates or reorders tickets, or changes the
    identifier or the creation date of a ticket: an update and a comment
    leave the sequence of identifiers and creation dates as it was, and a
    creation either leaves it as it was or appends one entry whose
    identifier no ticket of the collection has.  Identifiers that are
    pairwise distinct stay so. *)
Theorem handlers_keep_identities (zone : JS.TimeZone) (user : Principal) (i : Id) (body : Body)
    (db : Collection) (now1 now2 stamp : Date) :
  let afterUpdate := fst (updateTicket user i body db now1 now2 stamp) in
  let afterComment := fst (addComment user i body db stamp) in
  let afterCreate := fst (createTicket zone user body db now1 stamp) in
  identities afterUpdate = identities db
  /\ identities afterComment = identities db
  /\ (identities afterCreate = identities db
      \/ (identities afterCreate = identities db ++ [(newId db, stamp)]
          /\ ~ In (newId db) (map _id db)))
  /\ (NoDup (map _id db) ->
      NoDup (map _id afterUpdate) /\ NoDup (map _id afterComment)
      /\ NoDup (map _id afterCreate)).
Proof.
  intros afterUpdate afterComment afterCreate.
  assert (Hu : identities afterUpdate = identities db).
  { unfold afterUpdate.
    destruct (updateTicket_store user i body db now1 now2 stamp)
      as [->|(t & Ht & Hacc & Hval)]; [reflexivity|].
    rewrite (updateTicket_ok _ _ _ _ _ _ _ _ Ht Hacc Hval). cbn [fst].
    apply replaceById_identities. intros x. split; reflexivity. }
  assert (Hc : identities afterComment = identities db).
  { unfold afterComment.
    destruct (addComment_store user i body db stamp)
      as [[-> _]|(s & t & _ & _ & _ & _ & _ & ->)]; [reflexivity|]. cbn [fst].
    apply replaceById_identities. intros x. split; reflexivity. }
  assert (Hn : identities afterCreate = identities db
               \/ (identities afterCreate = identities db ++ [(newId db, stamp)]
                   /\ ~ In (newId db) (map _id db))).
  { unfold afterCreate.
    destruct (createTicket_cases zone user body db now1 stamp)
      as [[_ ->]|[_ [m ->]]]; [right|left; reflexivity]. cbn [fst].
    split; [|apply newId_fresh].
    unfold identities. now rewrite map_app. }
  assert (Hids : forall d, map _id d = map fst (identities d)).
  { intros d. unfold identities. rewrite map_map. reflexivity. }
  repeat split; try assumption.
  - now rewrite Hids, Hu, <- Hids.
  - now rewrite Hids, Hc, <- Hids.
  - destruct Hn as [Hn|[Hn Hfresh]]; rewrite Hids, Hn.
    + now rewrite <- Hids.
    + rewrite map_app, <- Hids. simpl.
      apply NoDup_app; [assumption | repeat constructor; intros [] | ].
      intros x Hx [<-|[]]. contradiction.
Qed.

(** X2.  A request that is not answered by 200 or 201 stores nothing: the
    collection after a refused creation, update or comment is the collection
    before it. *)
Theorem refused_requests_store_nothing (zone : JS.TimeZone) (user : Principal) (i : Id)
    (body : Body) (db : Collection) (now1 now2 stamp : Date) :
  (isSuccess (snd (createTicket zone user body db now1 stamp)) = false ->
   fst (createTicket zone user body db now1 stamp) = db)
  /\ (isSuccess (snd (updateTicket user i body db now1 now2 stamp)) = false ->
      fst (updateTicket user i body db now1 now2 stamp) = db)
  /\ (isSuccess (snd (addComment user i body db stamp)) = false ->
      fst (addComment user i body db stamp) = db).
Proof.
  split; [|split].
  - destruct (createTicket_cases zone user body db now1 stamp)
      as [[_ ->]|[_ [m ->]]]; [discriminate | reflexivity].
  - apply updateTicket_refused.
  - destruct (addComment_store user i body db stamp)
      as [[-> _]|(s & t & _ & _ & _ & _ & _ & ->)]; [reflexivity | discriminate].
Qed.

Lemma findById_app_l (j : Id) (db l : Collection) (t : Ticket) :
  findById j db = Some t -> findById j (db ++ l) = Some t.
Proof.
  unfold findById. induction db as [|x db IH]; simpl; [discriminate|].
  destruct (_id x =? j)%N; [trivial | exact IH].
Qed.

(** X3.  An update or a comment addressed to one identifier leaves the
    ticket of every other identifier as it was, whatever its outcome, and a
    creation leaves every ticket of the collection as it was. *)
Theorem handlers_touch_one_ticket (zone : JS.TimeZone) (user : Principal) (i j : Id) (body : Body)
    (db : Collection) (now1 now2 stamp : Date) :
  (j <> i ->
   findById j (fst (updateTicket user i body db now1 now2 stamp))
   = findById j db
   /\ findById j (fst (addComment user i body db stamp)) = findById j db)
  /\ (forall t, findById j db = Some t ->
        findById j (fst (createTicket zone user body db now1 stamp)) = Some t).
Proof.
  split.
  - intros Hji. apply N.eqb_neq in Hji. split.
    + destruct (updateTicket_store user i body db now1 now2 stamp)
        as [->|(t & Ht & Hacc & Hval)]; [reflexivity|].
      rewrite (updateTicket_ok _ _ _ _ _ _ _ _ Ht Hacc Hval). cbn [fst].
      rewrite findById_replaceById by (intros; apply applyUpdate_id).
      now rewrite Hji.
    + destruct (addComment_store user i body db stamp)
        as [[-> _]|(s & t & _ & _ & _ & _ & _ & ->)]; [reflexivity|]. cbn [fst].
      rewrite findById_replaceById by (intros; apply pushComment_id).
      now rewrite Hji.
  - intros t Ht.
    destruct (createTicket_cases zone user body db now1 stamp)
      as [[_ ->]|[_ [m ->]]]; cbn [fst]; [|exact Ht].
    now apply findById_app_l.
Qed.

(** ** Listings *)

Lemma In_sortByCreatedAtDesc (t : Ticket) (l : list Ticket) :
  In t (sortByCreatedAtDesc l) <-> In t l.
Proof.
  split; apply Permutation_in;
    [apply Permutation_sym|]; apply sortByCreatedAtDesc_perm.
Qed.

Lemma insertDesc_newestFirst (t : Ticket) (l : list Ticket) :
  newestFirst l -> newestFirst (insertDesc t l).
Proof.
  unfold newestFirst. induction l as [|x l IH]; intros Hl; simpl.
  - repeat constructor.
  - inversion Hl as [|? ? Hl' Hx]; subst.
    destruct (Z.leb_spec (createdAt x) (createdAt t)) as [Hle|Hlt].
    + constructor; [exact Hl|]. constructor; [exact Hle|].
      rewrite Forall_forall in *. intros y Hy. specialize (Hx y Hy). lia.
    + constructor; [now apply IH|].
      rewrite Forall_forall in *. intros y Hy.
      apply (Permutation_in _ (Permutation_sym (insertDesc_perm t l))) in Hy.
      destruct Hy as [<-|Hy]; [lia | now apply Hx].
Qed.

Lemma sortByCreatedAtDesc_newestFirst (l : list Ticket) :
  newestFirst (sortByCreatedAtDesc l).
Proof.
  induction l as [|x l IH]; simpl; [constructor|].
  now apply insertDesc_newestFirst.
Qed.

Lemma In_find (q : Query) (db : Collection) (t : Ticket) :
  In t (find q db) <-> In t db /\ matches q t = true.
Proof. unfold find. apply filter_In. Qed.

Lemma matches_listQuery (user : Principal) (t : Ticket) (m : string) :
  matches (listQuery user) t = true <-> accessDenied user t m = None.
Proof.
  rewrite accessDenied_None. unfold listQuery, matches.
  destruct (String.eqb_spec (role user) "user") as [Hu|Hu];
    destruct (String.eqb_spec (role user) "agent") as [Ha|Ha];
    try (rewrite Hu in Ha; discriminate); simpl.
  - rewrite andb_true_r, N.eqb_eq. split.
    + intros H. split; [auto | intros; contradiction].
    + intros [H _]. auto.
  - rewrite andb_true_r. destruct (assignedTo t) as [a|].
    + rewrite N.eqb_eq. split.
      * intros ->. split; [intros; contradiction | reflexivity].
      * intros [_ H]. specialize (H Ha). congruence.
    + split; [discriminate | intros [_ H]; specialize (H Ha); discriminate].
  - split; [intros _; split; intros; contradiction | reflexivity].
Qed.

Lemma findById_In (db : Collection) (t : Ticket) :
  NoDup (map _id db) -> In t db -> findById (_id t) db = Some t.
Proof.
  unfold findById. induction db as [|x db IH]; simpl; [intros _ []|].
  intros Hnd [->|Hin].
  - now rewrite N.eqb_refl.
  - inversion Hnd as [|? ? Hx Hnd']; subst.
    destruct (N.eqb_spec (_id x) (_id t)) as [E|E].
    + elim Hx. rewrite E. now apply in_map.
    + now apply IH.
Qed.

Lemma findById_Some_In (i : Id) (db : Collection) (t : Ticket) :
  findById i db = Some t -> In t db.
Proof. unfold findById. intros H. now apply find_some in H. Qed.

(** X4.  In a collection with pairwise distinct identifiers, the listing of
    a principal holds exactly the tickets that the same principal can read
    one by one: a ticket is listed if and only if the request for its
    identifier is answered by 200 with that ticket. *)
Theorem getTickets_lists_what_getTicket_returns (user : Principal)
    (db : Collection) :
  NoDup (map _id db) ->
  exists l,
    getTickets user db = Ok200 l
    /\ forall t, In t l <-> getTicket user (_id t) db = Ok200 t.
Proof.
  intros Hnd. eexists. split; [reflexivity|]. intros t.
  rewrite In_sortByCreatedAtDesc, In_find.
  rewrite (matches_listQuery user t
             "Access denied. This ticket is not assigned to you.").
  split.
  - intros [Hin Hacc].
    rewrite (getTicket_found _ _ _ _ (findById_In db t Hnd Hin)).
    now rewrite Hacc.
  - intros Hget. unfold getTicket in Hget.
    destruct (findById (_id t) db) as [t'|] eqn:Ht; [|discriminate].
    destruct (accessDenied user t' _) eqn:Hacc; [discriminate|].
    injection Hget as ->. split; [|exact Hacc].
    now apply findById_Some_In in Ht.
Qed.

(** X5.  Each of the three listings is ordered from the newest creation date
    to the oldest, and holds every ticket its filter selects as often as the
    collection does. *)
Theorem listings_newest_first (user : Principal) (db : Collection) :
  exists l mine assigned,
    getTickets user db = Ok200 l
    /\ getMyTickets user db = Ok200 mine
    /\ getAssignedTickets user db = Ok200 assigned
    /\ newestFirst l /\ newestFirst mine /\ newestFirst assigned
    /\ Permutation l (find (listQuery user) db)
    /\ Permutation mine (filter (fun t => (createdBy t =? pid user)%N) db)
    /\ Permutation assigned (filter (assignedToUser user) db).
Proof.
  do 3 eexists. do 3 (split; [reflexivity|]).
  do 3 (split; [apply sortByCreatedAtDesc_newestFirst|]).
  split; [|split]; apply Permutation_sym.
  - apply sortByCreatedAtDesc_perm.
  - replace (filter (fun t => (createdBy t =? pid user)%N) db)
      with (find [createdBy_is (pid user)] db);
      [apply sortByCreatedAtDesc_perm|].
    unfold find. apply filter_ext. intros t. unfold matches. simpl.
    apply andb_true_r.
  - rewrite <- find_assignedTo. apply sortByCreatedAtDesc_perm.
Qed.

(** X6.  The listing of one's own tickets and the listing of one's assigned
    tickets do not look at the role: the first holds exactly the tickets the
    principal created and the second exactly the tickets assigned to the
    principal.  The general listing is the first for a user and the second
    for an agent. *)
Theorem role_listings (user : Principal) (db : Collection) :
  (exists mine,
     getMyTickets user db = Ok200 mine
     /\ forall t, In t mine <-> In t db /\ createdBy t = pid user)
  /\ (exists assigned,
        getAssignedTickets user db = Ok200 assigned
        /\ forall t, In t assigned <-> In t db /\ assignedTo t = Some (pid user))
  /\ (role user = "user" -> getTickets user db = getMyTickets user db)
  /\ (role user = "agent" -> getTickets user db = getAssignedTickets user db).
Proof.
  split; [|split; [|split]].
  - eexists. split; [reflexivity|]. intros t.
    rewrite In_sortByCreatedAtDesc, In_find. unfold matches. simpl.
    now rewrite andb_true_r, N.eqb_eq.
  - eexists. split; [reflexivity|]. intros t.
    rewrite In_sortByCreatedAtDesc, In_find. unfold matches. simpl.
    rewrite andb_true_r. destruct (assignedTo t) as [a|].
    + rewrite N.eqb_eq. split; intros [H E]; split; congruence.
    + split; intros [H E]; discriminate.
  - intros H. unfold getTickets, getMyTickets, listQuery. now rewrite H.
  - intros H. unfold getTickets, getAssignedTickets, listQuery. now rewrite H.
Qed.

(** ** The order and the sharing of the checks *)

Lemma accessDenied_message (user : Principal) (t : Ticket) (m m' : string) :
  accessDenied user t m = None <-> accessDenied user t m' = None.
Proof. now rewrite !accessDenied_None. Qed.

Lemma isForbidden_accessDenied (user : Principal) (t : Ticket) (m m' : string) :
  match accessDenied user t m with Some _ => true | None => false end
  = match accessDenied user t m' with Some _ => true | None => false end.
Proof.
  pose proof (accessDenied_message user t m m') as H.
  destruct (accessDenied user t m), (accessDenied user t m'); try reflexivity.
  - destruct H as [_ H]. discriminate (H eq_refl).
  - destruct H as [H _]. discriminate (H eq_refl).
Qed.

Lemma updateTicket_denied (user : Principal) (i : Id) (body : Body)
    (db : Collection) (now1 now2 stamp : Date) (t : Ticket) (m : string) :
  findById i db = Some t ->
  accessDenied user t "Access denied. Ticket not assigned to you." = Some m ->
  updateTicket user i body db now1 now2 stamp = (db, Forbidden403 m).
Proof. intros Ht Hacc. unfold updateTicket. now rewrite Ht, Hacc. Qed.

Lemma updateTicket_invalid (user : Principal) (i : Id) (body : Body)
    (db : Collection) (now1 now2 stamp : Date) (t : Ticket) :
  findById i db = Some t ->
  accessDenied user t "Access denied. Ticket not assigned to you." = None ->
  invalidUpdatePaths body <> [] ->
  updateTicket user i body db now1 now2 stamp
  = (db, BadRequest400 (ValidationFailed (invalidUpdatePaths body))).
Proof.
  intros Ht Hacc Hval. unfold updateTicket, findByIdAndUpdate.
  rewrite Ht, Hacc, lifecycle_validators.
  destruct (invalidUpdatePaths body); [contradiction | reflexivity].
Qed.

(** X7.  Reading, updating and commenting share one access rule: for a
    ticket of the collection, an update is answered by 403 exactly when
    reading the ticket is, whatever the patch, and so is a comment whose
    text is not blank. *)
Theorem one_access_rule (user : Principal) (i : Id) (body : Body)
    (db : Collection) (now1 now2 stamp : Date) (t : Ticket) :
  findById i db = Some t ->
  isForbidden (snd (updateTicket user i body db now1 now2 stamp))
  = isForbidden (getTicket user i db)
  /\ (~ blankText body ->
      isForbidden (snd (addComment user i body db stamp))
      = isForbidden (getTicket user i db)).
Proof.
  intros Ht. rewrite (getTicket_found _ _ _ _ Ht).
  pose proof (isForbidden_accessDenied user t
                "Access denied. Ticket not assigned to you."
                "Access denied. This ticket is not assigned to you.") as Hm.
  split.
  - destruct (accessDenied user t "Access denied. Ticket not assigned to you.")
      as [m|] eqn:Hacc.
    + rewrite (updateTicket_denied _ _ _ _ _ _ _ _ _ Ht Hacc). cbn [snd].
      destruct (accessDenied user t
                  "Access denied. This ticket is not assigned to you.");
        [reflexivity | discriminate].
    + destruct (accessDenied user t
                  "Access denied. This ticket is not assigned to you.");
        [discriminate|].
      destruct (invalidUpdatePaths body) as [|p ps] eqn:Hval.
      * now rewrite (updateTicket_ok _ _ _ _ _ _ _ _ Ht Hacc Hval).
      * rewrite (updateTicket_invalid _ _ _ _ _ _ _ _ Ht Hacc); [|congruence].
        reflexivity.
  - intros Hblank. unfold addComment.
    destruct (b_text body) as [s|] eqn:Hs;
      [|elim Hblank; intros s' Hs'; congruence].
    assert (Htrim : JS.trim s <> "").
    { intros E. apply Hblank. intros s' Hs'. congruence. }
    assert (Hne : s <> "") by (intros ->; now apply Htrim).
    apply String.eqb_neq in Htrim, Hne. cbn [JS.not_ orElse].
    rewrite Hne, Htrim, Ht. cbn [orb].
    destruct (accessDenied user t "Access denied. Ticket not assigned to you.");
      destruct (accessDenied user t
                  "Access denied. This ticket is not assigned to you.");
      try discriminate; try reflexivity.
    now destruct (invalidDocumentPaths _).
Qed.

Lemma invalidCommentInputs_nth (l : list CommentInput) (n : nat)
    (c : CommentInput) (i : nat) :
  nth_error l n = Some c ->
  (ci_user c = None ->
   In (commentPath (i + n) "user") (invalidCommentInputs i l))
  /\ (JS.not_ (ci_text c) = true ->
      In (commentPath (i + n) "text") (invalidCommentInputs i l)).
Proof.
  revert n i. induction l as [|x l IH]; intros n i Hn.
  - destruct n; discriminate.
  - destruct n as [|n]; cbn [nth_error] in Hn.
    + injection Hn as ->. rewrite Nat.add_0_r. cbn [invalidCommentInputs].
      split; intros H; rewrite H.
      * left. reflexivity.
      * rewrite in_app_iff. right. left. reflexivity.
    + destruct (IH n (S i) Hn) as [Hu Ht].
      replace (i + S n)%nat with (S i + n)%nat by lia.
      cbn [invalidCommentInputs].
      split; intros H; rewrite !in_app_iff; right; right; auto.
Qed.

(** X8.  An update looks for the ticket first, then at the access rule,
    then at the patch: no ticket gives 404 whatever the role and the patch,
    a ticket the principal may not touch gives 403 whatever the patch, and
    only then an invalid patch gives 400 with the paths that failed, those
    of its comments included: a comment of the patch without an author or
    without a text is named by its position.  A comment request looks at
    its text first: a blank text gives 400 whether or not the ticket exists
    or is accessible. *)
Theorem order_of_checks (user : Principal) (i : Id) (body : Body)
    (db : Collection) (now1 now2 stamp : Date) :
  (findById i db = None ->
   updateTicket user i body db now1 now2 stamp
   = (db, NotFound404 "Ticket not found"))
  /\ (forall t,
        findById i db = Some t ->
        isForbidden (getTicket user i db) = true ->
        exists m,
          updateTicket user i body db now1 now2 stamp = (db, Forbidden403 m))
  /\ (forall t,
        findById i db = Some t ->
        isForbidden (getTicket user i db) = false ->
        invalidUpdatePaths body <> [] ->
        updateTicket user i body db now1 now2 stamp
        = (db, BadRequest400 (ValidationFailed (invalidUpdatePaths body))))
  /\ (forall l n c,
        b_comments body = Some l -> nth_error l n = Some c ->
        (ci_user c = None -> In (commentPath n "user") (invalidUpdatePaths body))
        /\ (JS.not_ (ci_text c) = true ->
            In (commentPath n "text") (invalidUpdatePaths body)))
  /\ (blankText body ->
      addComment user i body db stamp
      = (db, BadRequest400 (Text "Comment text is required")))
  /\ (~ blankText body -> findById i db = None ->
      addComment user i body db stamp = (db, NotFound404 "Ticket not found")).
Proof.
  split; [|split; [|split; [|split; [|split]]]].
  - intros H. unfold updateTicket. now rewrite H.
  - intros t Ht Hf. rewrite (getTicket_found _ _ _ _ Ht) in Hf.
    pose proof (isForbidden_accessDenied user t
                  "Access denied. Ticket not assigned to you."
                  "Access denied. This ticket is not assigned to you.") as Hm.
    destruct (accessDenied user t
                "Access denied. This ticket is not assigned to you.");
      [|discriminate].
    destruct (accessDenied user t "Access denied. Ticket not assigned to you.")
      as [m|] eqn:Hacc; [|discriminate].
    exists m. now apply updateTicket_denied with (t := t).
  - intros t Ht Hf Hval. rewrite (getTicket_found _ _ _ _ Ht) in Hf.
    pose proof (isForbidden_accessDenied user t
                  "Access denied. Ticket not assigned to you."
                  "Access denied. This ticket is not assigned to you.") as Hm.
    destruct (accessDenied user t
                "Access denied. This ticket is not assigned to you.");
      [discriminate|].
    destruct (accessDenied user t "Access denied. Ticket not assigned to you.")
      eqn:Hacc; [discriminate|].
    now apply updateTicket_invalid with (t := t).
  - intros l n c Hl Hn. unfold invalidUpdatePaths. rewrite Hl.
    pose proof (invalidCommentInputs_nth l n c 0 Hn) as [Hu Ht].
    rewrite Nat.add_0_l in Hu, Ht.
    split; intros H; rewrite !in_app_iff; repeat right; auto.
  - intros Hblank. unfold addComment.
    destruct (b_text body) as [s|] eqn:Hs; [|reflexivity].
    cbn [JS.not_ orElse]. rewrite (Hblank s Hs).
    now rewrite String.eqb_refl, orb_true_r.
  - intros Hblank Hnone. unfold addComment.
    destruct (b_text body) as [s|] eqn:Hs;
      [|elim Hblank; intros s' Hs'; congruence].
    assert (Htrim : JS.trim s <> "").
    { intros E. apply Hblank. intros s' Hs'. congruence. }
    assert (Hne : s <> "") by (intros ->; now apply Htrim).
    apply String.eqb_neq in Htrim, Hne. cbn [JS.not_ orElse].
    now rewrite Hne, Htrim, Hnone.
Qed.

Lemma invalidComments_app (i : nat) (l : list Comment) (c : Comment) :
  invalidComments i l = [] -> c_text c <> "" ->
  invalidComments i (l ++ [c]) = [].
Proof.
  revert i. induction l as [|x l IH]; intros i Hl Hc; simpl.
  - apply String.eqb_neq in Hc. now rewrite Hc.
  - simpl in Hl. apply app_eq_nil in Hl as [Hx Hl].
    rewrite Hx. now apply IH.
Qed.

Lemma pushComment_documentValid (c : Comment) (t : Ticket) (stamp : Date) :
  documentValid t -> c_text c <> "" ->
  documentValid (pushComment c t stamp).
Proof.
  unfold documentValid, invalidDocumentPaths. intros Ht Hc.
  apply app_eq_nil in Ht as [Hs Hl].
  change (invalidPaths (pushComment c t stamp)) with (invalidPaths t).
  rewrite Hs. cbn [pushComment comments app].
  now apply invalidComments_app.
Qed.

(** X9.  A comment with a text that is not blank, on a ticket that the
    principal may touch and that passes the validators of the schema, is
    stored at the end of the ticket's comments with the principal as its
    author, the text without the white space around it, and the flag of the
    request, false when the request has none; every other field of the
    ticket but its modification date stays as it was, and the response
    carries the stored ticket. *)
Theorem addComment_appends (user : Principal) (i : Id) (body : Body)
    (db : Collection) (stamp : Date) (t : Ticket) (s : string) :
  findById i db = Some t ->
  documentValid t ->
  accessDenied user t "Access denied. Ticket not assigned to you." = None ->
  b_text body = Some s ->
  JS.trim s <> "" ->
  exists db' t',
    addComment user i body db stamp = (db', Ok200 (Some t'))
    /\ findById i db' = Some t'
    /\ comments t'
       = comments t
         ++ [mkComment (pid user) (JS.trim s)
               (match b_isInternal body with Some b => b | None => false end)
               stamp]
    /\ updatedAt t' = stamp
    /\ (_id t', title t', description t', status t', priority t', category t')
       = (_id t, title t, description t, status t, priority t, category t)
    /\ (createdBy t', assignedTo t', slaDeadline t', createdAt t')
       = (createdBy t, assignedTo t, slaDeadline t, createdAt t)
    /\ (resolvedAt t', resolutionTime t') = (resolvedAt t, resolutionTime t).
Proof.
  intros Ht Hdoc Hacc Hs Htrim.
  destruct (addComment_store user i body db stamp)
    as [[_ Hfail]|(s' & t0 & Hs' & _ & Ht0 & _ & _ & Hok)].
  - exfalso. unfold addComment in Hfail.
    assert (Hne : s <> "") by (intros ->; now apply Htrim).
    pose proof (pushComment_documentValid
                  (mkComment (pid user) (JS.trim s)
                     (JS.orFalse (b_isInternal body)) stamp) t stamp
                  Hdoc Htrim) as Hvalid.
    unfold documentValid in Hvalid.
    apply String.eqb_neq in Htrim, Hne.
    rewrite Hs in Hfail. cbn [JS.not_ orElse] in Hfail.
    rewrite Hne, Htrim, Ht, Hacc, Hvalid in Hfail. discriminate.
  - rewrite Hs in Hs'. injection Hs' as <-.
    rewrite Ht in Ht0. injection Ht0 as <-.
    do 2 eexists. split; [exact Hok|]. split.
    + rewrite findById_replaceById by (intros; apply pushComment_id).
      now rewrite N.eqb_refl, Ht.
    + repeat split.
Qed.

(** ** Sequences of requests *)

Lemma draftDocument_fields (zone : JS.TimeZone) (user : Principal) (body : Body) (db : Collection)
    (now stamp : Date) :
  let t := draftDocument zone user body db now stamp in
  _id t = newId db /\ createdBy t = pid user /\ assignedTo t = None
  /\ status t = "open" /\ comments t = []
  /\ resolvedAt t = None /\ resolutionTime t = None.
Proof. repeat split. Qed.

(** X10.  A ticket created from a valid draft belongs to the principal of
    the request, whatever creator the draft names.  Read back by the same
    principal it is returned, and it is in the principal's listing, unless
    the principal is an agent: the new ticket has no assignee, so the agent
    who created it is answered by 403 and does not find it in the listing. *)
Theorem created_ticket_read_back (zone : JS.TimeZone) (user : Principal) (body : Body)
    (db : Collection) (now stamp : Date) :
  validDraft body = true ->
  exists db' t,
    createTicket zone user body db now stamp = (db', Created201 (Some t))
    /\ createdBy t = pid user
    /\ (role user <> "agent" -> getTicket user (_id t) db' = Ok200 t)
    /\ (role user = "agent" ->
        getTicket user (_id t) db'
        = Forbidden403 "Access denied. This ticket is not assigned to you.")
    /\ exists l,
         getTickets user db' = Ok200 l /\ (In t l <-> role user <> "agent").
Proof.
  intros Hvalid. rewrite (createTicket_valid _ _ _ _ _ _ Hvalid).
  set (t := draftDocument zone user body db now stamp).
  destruct (draftDocument_fields zone user body db now stamp)
    as (Hid & Hby & Hto & _). fold t in Hid, Hby, Hto.
  assert (Hfind : findById (_id t) (db ++ [t]) = Some t).
  { rewrite Hid. now apply findById_newId. }
  assert (Hacc : forall m, accessDenied user t m = None <-> role user <> "agent").
  { intros m. rewrite accessDenied_None, Hby, Hto. split.
    - intros [_ H] Ha. discriminate (H Ha).
    - intros H. split; [reflexivity | intros Ha; contradiction]. }
  do 2 eexists. split; [reflexivity|]. split; [exact Hby|].
  split; [|split].
  - intros Hrole. rewrite (getTicket_found _ _ _ _ Hfind).
    apply (Hacc "Access denied. This ticket is not assigned to you.") in Hrole.
    now rewrite Hrole.
  - intros Hrole. rewrite (getTicket_found _ _ _ _ Hfind).
    unfold accessDenied. rewrite Hrole, Hto. reflexivity.
  - eexists. split; [reflexivity|].
    rewrite In_sortByCreatedAtDesc, In_find.
    rewrite (matches_listQuery user t ""), Hacc. split.
    + now intros [_ H].
    + intros H. split; [|exact H]. apply in_or_app. right. now left.
Qed.

(** X11.  After an authorised update with a valid patch that has an entry
    for the assignee, the ticket has the assignee of the patch, and an agent
    can read the ticket exactly when the agent is that assignee: the agent
    named by the patch gains access and every other agent, the previous
    assignee included, is answered by 403. *)
Theorem assignment_moves_access (user : Principal) (i : Id) (body : Body)
    (db : Collection) (now1 now2 stamp : Date) (t : Ticket)
    (assignee : option Id) :
  findById i db = Some t ->
  accessDenied user t "Access denied. Ticket not assigned to you." = None ->
  invalidUpdatePaths body = [] ->
  b_assignedTo body = Some assignee ->
  exists db' t',
    updateTicket user i body db now1 now2 stamp = (db', Ok200 t')
    /\ assignedTo t' = assignee
    /\ forall agent,
         role agent = "agent" ->
         (getTicket agent i db' = Ok200 t' <-> assignee = Some (pid agent))
         /\ (isForbidden (getTicket agent i db') = true
             <-> assignee <> Some (pid agent)).
Proof.
  intros Ht Hacc Hval Hto.
  rewrite (updateTicket_ok _ _ _ _ _ _ _ _ Ht Hacc Hval).
  set (body' := lifecycle body t now1 now2).
  assert (Hto' : assignedTo (applyUpdate body' t stamp) = assignee).
  { cbn [applyUpdate assignedTo]. unfold body', lifecycle.
    destruct (beingResolved body t); cbn; now rewrite Hto. }
  do 2 eexists. split; [reflexivity|]. split; [exact Hto'|].
  intros agent Hrole.
  assert (Hfind : findById i
                    (replaceById i (fun x => applyUpdate body' x stamp) db)
                  = Some (applyUpdate body' t stamp)).
  { rewrite findById_replaceById by (intros; apply applyUpdate_id).
    now rewrite N.eqb_refl, Ht. }
  rewrite (getTicket_found _ _ _ _ Hfind).
  pose proof (accessDenied_None agent (applyUpdate body' t stamp)
                "Access denied. This ticket is not assigned to you.") as Hn.
  rewrite Hto' in Hn.
  destruct (accessDenied agent (applyUpdate body' t stamp) _) as [m|].
  - assert (Hne : assignee <> Some (pid agent)).
    { intros E. destruct Hn as [_ Hn]. 
      discriminate Hn. split; [rewrite Hrole; discriminate | auto]. }
    split; split; try discriminate; try reflexivity; try contradiction.
    intros _. exact Hne.
  - assert (He : assignee = Some (pid agent)) by (now apply Hn).
    split; split; try discriminate; try reflexivity; try contradiction.
    intros _. exact He.
Qed.



(** ** Invariants of the collection *)

Lemma In_replaceById (i : Id) (f : Ticket -> Ticket) (db : Collection)
    (t : Ticket) :
  In t (replaceById i f db) -> In t db \/ exists x, In x db /\ t = f x.
Proof.
  induction db as [|x db IH]; simpl; [intros []|].
  destruct (_id x =? i)%N; simpl.
  - intros [<-|H]; [right; exists x; auto | left; auto].
  - intros [<-|H]; [left; auto|].
    destruct (IH H) as [H'|(y & Hy & ->)]; [left; auto|].
    right. exists y. auto.
Qed.

Lemma In_after_update (user : Principal) (i : Id) (body : Body)
    (db : Collection) (now1 now2 stamp : Date) (t' : Ticket) :
  In t' (fst (updateTicket user i body db now1 now2 stamp)) ->
  In t' db
  \/ exists t x,
       findById i db = Some t /\ invalidUpdatePaths body = [] /\ In x db
       /\ t' = applyUpdate (lifecycle body t now1 now2) x stamp.
Proof.
  destruct (updateTicket_store user i body db now1 now2 stamp)
    as [->|(t & Ht & Hacc & Hval)]; [now left|].
  rewrite (updateTicket_ok _ _ _ _ _ _ _ _ Ht Hacc Hval). cbn [fst].
  intros H. apply In_replaceById in H as [H|(x & Hx & ->)]; [now left|].
  right. exists t, x. auto.
Qed.

Lemma In_after_comment (user : Principal) (i : Id) (body : Body)
    (db : Collection) (stamp : Date) (t' : Ticket) :
  In t' (fst (addComment user i body db stamp)) ->
  In t' db \/ exists c x, In x db /\ t' = pushComment c x stamp.
Proof.
  destruct (addComment_store user i body db stamp)
    as [[-> _]|(s & t & _ & _ & _ & _ & _ & ->)]; [now left|]. cbn [fst].
  intros H. apply In_replaceById in H as [H|(x & Hx & ->)]; [now left|].
  right. eauto.
Qed.

Lemma In_after_create (zone : JS.TimeZone) (user : Principal) (body : Body) (db : Collection)
    (now stamp : Date) (t' : Ticket) :
  In t' (fst (createTicket zone user body db now stamp)) ->
  In t' db
  \/ (validDraft body = true /\ t' = draftDocument zone user body db now stamp).
Proof.
  destruct (createTicket_cases zone user body db now stamp)
    as [[Hv ->]|[_ [m ->]]]; cbn [fst]; [|now left].
  intros H. apply in_app_or in H as [H|[<-|[]]]; [now left | now right].
Qed.

Lemma applyUpdate_schemaValid (body : Body) (x : Ticket) (stamp : Date) :
  invalidUpdatePaths body = [] -> schemaValid x ->
  schemaValid (applyUpdate body x stamp).
Proof.
  unfold schemaValid, invalidUpdatePaths, invalidPaths. intros Hb Hx.
  apply app_eq_nil in Hb as [Bt Hb]. apply app_eq_nil in Hb as [Bd Hb].
  apply app_eq_nil in Hb as [Bs Hb]. apply app_eq_nil in Hb as [Bp Hb].
  apply app_eq_nil in Hb as [Bc _].
  apply app_eq_nil in Hx as [Xt Hx]. apply app_eq_nil in Hx as [Xd Hx].
  apply app_eq_nil in Hx as [Xs Hx]. apply app_eq_nil in Hx as [Xp Xc].
  cbn [applyUpdate title description status priority category].
  destruct (b_title body), (b_description body), (b_status body),
    (b_priority body), (b_category body);
    cbn [checkKey option_map orElse] in *;
    rewrite ?Bt, ?Bd, ?Bs, ?Bp, ?Bc, ?Xt, ?Xd, ?Xs, ?Xp, ?Xc; reflexivity.
Qed.

Lemma draftDocument_schemaValid (zone : JS.TimeZone) (user : Principal) (body : Body)
    (db : Collection) (now stamp : Date) :
  validDraft body = true ->
  schemaValid (draftDocument zone user body db now stamp).
Proof.
  unfold validDraft, schemaValid, draftDocument, invalidPaths.
  destruct (b_title body) as [t|]; [|discriminate].
  destruct (b_description body) as [d|]; [|discriminate].
  destruct (b_category body) as [c|]; [|discriminate].
  destruct (b_priority body) as [p|]; [|discriminate].
  intros H. apply andb_prop in H as [H Hp]. apply andb_prop in H as [H Hc].
  apply andb_prop in H as [Ht Hd].
  cbn [newDocument title description status priority category orElse
       n_title n_description n_category n_priority].
  now rewrite Ht, Hd, Hc, Hp.
Qed.

(** X13.  The validators of the schema hold of every stored ticket for good:
    when every ticket of the collection has a title of 1 to 100 characters,
    a description that is not empty, and a status, priority and category of
    their enumerations, so has every ticket of the collection after a
    creation, an update or a comment, whatever the request. *)
Theorem handlers_keep_schema (zone : JS.TimeZone) (user : Principal) (i : Id) (body : Body)
    (db : Collection) (now1 now2 stamp : Date) :
  Forall schemaValid db ->
  Forall schemaValid (fst (createTicket zone user body db now1 stamp))
  /\ Forall schemaValid (fst (updateTicket user i body db now1 now2 stamp))
  /\ Forall schemaValid (fst (addComment user i body db stamp)).
Proof.
  rewrite !Forall_forall. intros Hdb. split; [|split]; intros t' Hin.
  - apply In_after_create in Hin as [H|[Hv ->]]; [now apply Hdb|].
    now apply draftDocument_schemaValid.
  - apply In_after_update in Hin as [H|(t & x & _ & Hval & Hx & ->)];
      [now apply Hdb|].
    apply applyUpdate_schemaValid; [|now apply Hdb].
    now rewrite lifecycle_validators.
  - apply In_after_comment in Hin as [H|(c & x & Hx & ->)]; [now apply Hdb|].
    exact (Hdb x Hx).
Qed.

(** X14.  The resolution date and the resolution time stay paired: when in
    every ticket of the collection both are present or both are absent, the
    same holds after a creation, after a comment, and after an update whose
    patch has no entry for either of them. *)
Theorem handlers_keep_resolution_paired (zone : JS.TimeZone) (user : Principal) (i : Id)
    (body : Body) (db : Collection) (now1 now2 stamp : Date) :
  Forall pairedResolution db ->
  Forall pairedResolution (fst (createTicket zone user body db now1 stamp))
  /\ Forall pairedResolution (fst (addComment user i body db stamp))
  /\ (b_resolvedAt body = None -> b_resolutionTime body = None ->
      Forall pairedResolution
        (fst (updateTicket user i body db now1 now2 stamp))).
Proof.
  rewrite !Forall_forall. intros Hdb. split; [|split].
  - intros t' Hin.
    apply In_after_create in Hin as [H|[Hv ->]]; [now apply Hdb|].
    split; reflexivity.
  - intros t' Hin.
    apply In_after_comment in Hin as [H|(c & x & Hx & ->)]; [now apply Hdb|].
    exact (Hdb x Hx).
  - intros Hra Hrt t' Hin.
    apply In_after_update in Hin as [H|(t & x & _ & _ & Hx & ->)];
      [now apply Hdb|].
    unfold pairedResolution, lifecycle.
    destruct (beingResolved body t); cbn.
    + split; discriminate.
    + rewrite Hra, Hrt. exact (Hdb x Hx).
Qed.

(** ** The figures of the dashboard *)

Lemma countDocuments_status (q : Query) (s : string) (db : Collection) :
  countDocuments (q ++ [status_is s]) db
  = countIf (fun t => (status t =? s)%string) (find q db).
Proof.
  unfold countDocuments, countIf. rewrite find_app. unfold find.
  do 2 f_equal. apply filter_ext. intros t. unfold matches. simpl.
  apply andb_true_r.
Qed.

Lemma schemaValid_status (t : Ticket) :
  schemaValid t ->
  status t = "open" \/ status t = "pending"
  \/ status t = "resolved" \/ status t = "closed".
Proof.
  unfold schemaValid, invalidPaths. intros H.
  apply app_eq_nil in H as [_ H]. apply app_eq_nil in H as [_ H].
  apply app_eq_nil in H as [H _]. apply check_nil in H.
  unfold inEnum, statusEnum in H. simpl in H.
  repeat (apply orb_prop in H as [H|H];
          [apply String.eqb_eq in H; auto|]).
  discriminate.
Qed.

Lemma length_filter_le {A} (f : A -> bool) (l : list A) :
  (List.length (filter f l) <= List.length l)%nat.
Proof.
  induction l as [|x l IH]; simpl; [lia|]. destruct (f x); simpl; lia.
Qed.

Lemma countIf_cons (f : Ticket -> bool) (t : Ticket) (l : list Ticket) :
  countIf f (t :: l) = (if f t then 1 else 0) + countIf f l.
Proof.
  unfold countIf. simpl. destruct (f t); [|reflexivity].
  cbn [List.length]. lia.
Qed.

Lemma countIf_nonneg (f : Ticket -> bool) (l : list Ticket) : 0 <= countIf f l.
Proof. unfold countIf. lia. Qed.

Lemma status_partition (l : list Ticket) :
  Forall schemaValid l ->
  countIf (fun t => (status t =? "open")%string) l
  + countIf (fun t => (status t =? "pending")%string) l
  + countIf (fun t => (status t =? "resolved")%string) l
  + countIf (fun t => (status t =? "closed")%string) l
  = Z.of_nat (List.length l).
Proof.
  induction 1 as [|t l Ht Hl IH]; [reflexivity|].
  rewrite !countIf_cons. cbn [List.length]. rewrite Nat2Z.inj_succ.
  destruct (schemaValid_status t Ht) as [E|[E|[E|E]]]; rewrite E;
    cbn [String.eqb Ascii.eqb Bool.eqb andb]; lia.
Qed.

Lemma Forall_find (P : Ticket -> Prop) (q : Query) (db : Collection) :
  Forall P db -> Forall P (find q db).
Proof.
  rewrite !Forall_forall. intros H t Ht. apply In_find in Ht as [Ht _].
  now apply H.
Qed.

(** X15.  In a collection whose tickets pass the validators of the schema,
    the total of a report is the number of tickets in its scope and is the
    sum of its open, pending, resolved and closed counts; the count of the
    last seven days is at most the total, and no count is negative. *)
Theorem report_counts_add_up (zone : JS.TimeZone) (user : Principal) (db : Collection)
    (now1 now2 : Date) :
  Forall schemaValid db ->
  exists r,
    getDashboardStats zone user db now1 now2 = Ok200 r
    /\ totalTickets r = Z.of_nat (List.length (reportScope user db))
    /\ totalTickets r
       = openTickets r + pendingTickets r + resolvedTickets r
         + closedTickets r
    /\ 0 <= openTickets r /\ 0 <= pendingTickets r
    /\ 0 <= resolvedTickets r /\ 0 <= closedTickets r
    /\ 0 <= recentTickets r <= totalTickets r.
Proof.
  intros Hdb. eexists. split; [reflexivity|].
  unfold computeStats.
  destruct (slaCounters _) as [compliant total].
  destruct (slaBreakdown _ _) as [[n w] b].
  cbn [totalTickets openTickets pendingTickets resolvedTickets closedTickets
       recentTickets].
  rewrite !countDocuments_status.
  unfold countDocuments. rewrite find_app, !find_statsQueryOf.
  split; [reflexivity|]. split.
  - symmetry. apply status_partition. rewrite <- find_statsQueryOf.
    now apply Forall_find.
  - unfold countIf, find.
    pose proof (length_filter_le
                  (matches [createdAt_gte (addDays zone (-7) now1)])
                  (reportScope user db)).
    repeat split; lia.
Qed.

Lemma countOf_bump (k k' : string) (g : list (string * Z)) :
  countOf k (bump k' g) = countOf k g + (if (k' =? k)%string then 1 else 0).
Proof.
  induction g as [|[k0 n] g IH]; simpl.
  - destruct (k' =? k)%string; lia.
  - destruct (String.eqb_spec k0 k') as [->|Hk]; simpl.
    + destruct (k' =? k)%string; lia.
    + rewrite IH. destruct (k0 =? k)%string; lia.
Qed.

Lemma sumCounts_bump (k : string) (g : list (string * Z)) :
  sumCounts (bump k g) = sumCounts g + 1.
Proof.
  induction g as [|[k0 n] g IH]; simpl; [reflexivity|].
  destruct (k0 =? k)%string; simpl; [lia|]. rewrite IH. lia.
Qed.

Lemma keys_bump (k k' : string) (g : list (string * Z)) :
  In k (map fst (bump k' g)) <-> k = k' \/ In k (map fst g).
Proof.
  induction g as [|[k0 n] g IH]; simpl.
  - intuition.
  - destruct (String.eqb_spec k0 k') as [->|Hk]; simpl.
    + intuition.
    + rewrite IH. intuition.
Qed.

Lemma NoDup_bump (k : string) (g : list (string * Z)) :
  NoDup (map fst g) -> NoDup (map fst (bump k g)).
Proof.
  induction g as [|[k0 n] g IH]; simpl; intros H.
  - repeat constructor. intros [].
  - inversion H as [|? ? Hk0 Hg]; subst.
    destruct (String.eqb_spec k0 k) as [->|Hk]; simpl.
    + now constructor.
    + constructor; [|now apply IH].
      rewrite keys_bump. intros [E|E]; [congruence | contradiction].
Qed.

Lemma positive_bump (k : string) (g : list (string * Z)) :
  Forall (fun e => 0 < snd e) g -> Forall (fun e => 0 < snd e) (bump k g).
Proof.
  induction g as [|[k0 n] g IH]; simpl; intros H.
  - repeat constructor.
  - inversion H as [|? ? Hn Hg]; subst. simpl in Hn.
    destruct (k0 =? k)%string; constructor; simpl; auto; lia.
Qed.

Lemma groupCount_fold (key : Ticket -> string) (l : list Ticket)
    (g : list (string * Z)) :
  let g' := fold_left (fun groups t => bump (key t) groups) l g in
  (forall k, countOf k g'
             = countOf k g + countIf (fun t => (key t =? k)%string) l)
  /\ sumCounts g' = sumCounts g + Z.of_nat (List.length l)
  /\ (NoDup (map fst g) -> NoDup (map fst g'))
  /\ (Forall (fun e => 0 < snd e) g -> Forall (fun e => 0 < snd e) g').
Proof.
  revert g. induction l as [|t l IH]; intros g; cbn [fold_left].
  - repeat split; auto; unfold countIf; simpl; lia.
  - destruct (IH (bump (key t) g)) as (Hc & Hs & Hn & Hp).
    repeat split.
    + intros k. rewrite Hc, countOf_bump, countIf_cons. lia.
    + rewrite Hs, sumCounts_bump. cbn [List.length]. lia.
    + intros H. now apply Hn, NoDup_bump.
    + intros H. now apply Hp, positive_bump.
Qed.

Lemma countOf_In (k : string) (n : Z) (g : list (string * Z)) :
  NoDup (map fst g) -> In (k, n) g -> countOf k g = n.
Proof.
  induction g as [|[k0 n0] g IH]; simpl; [intros _ []|].
  intros H [E|Hin]; inversion H as [|? ? Hk0 Hg]; subst.
  - injection E as -> ->. rewrite String.eqb_refl.
    assert (Hz : countOf k g = 0).
    { clear -Hk0. induction g as [|[k1 n1] g IH]; simpl; [reflexivity|].
      simpl in Hk0. destruct (String.eqb_spec k1 k) as [->|Hk].
      - elim Hk0. now left.
      - apply IH. intros Hin. apply Hk0. now right. }
    fold (countOf k g). rewrite Hz. lia.
  - destruct (String.eqb_spec k0 k) as [->|Hk].
    + elim Hk0. change k with (fst (k, n)). now apply in_map.
    + now apply IH.
Qed.

Lemma countOf_entry (k : string) (g : list (string * Z)) :
  countOf k g <> 0 -> exists n, In (k, n) g.
Proof.
  induction g as [|[k0 n0] g IH]; simpl; [congruence|].
  destruct (String.eqb_spec k0 k) as [->|Hk].
  - intros _. exists n0. now left.
  - intros H. destruct (IH H) as [n Hn]. exists n. now right.
Qed.

Lemma groupCount_spec (key : Ticket -> string) (l : list Ticket) :
  NoDup (map fst (groupCount key l))
  /\ sumCounts (groupCount key l) = Z.of_nat (List.length l)
  /\ forall k n,
       In (k, n) (groupCount key l)
       <-> 0 < n /\ n = countIf (fun t => (key t =? k)%string) l.
Proof.
  unfold groupCount.
  destruct (groupCount_fold key l []) as (Hc & Hs & Hn & Hp).
  specialize (Hn (NoDup_nil _)). specialize (Hp (Forall_nil _)).
  split; [exact Hn|]. split; [exact Hs|]. intros k n. split.
  - intros Hin. split.
    + rewrite Forall_forall in Hp. exact (Hp _ Hin).
    + rewrite <- (countOf_In k n _ Hn Hin), Hc. reflexivity.
  - intros [Hpos ->].
    destruct (countOf_entry k
                (fold_left (fun groups t => bump (key t) groups) l []))
      as [n Hin].
    + rewrite Hc. simpl. lia.
    + rewrite <- (countOf_In k n _ Hn Hin), Hc in Hin. exact Hin.
Qed.

(** X16.  For a principal that is not an agent, each distribution of the
    report (by priority, by category, by status) lists every value that a
    ticket of the collection has exactly once, with the number of tickets
    that have it; a value that no ticket has is not listed, and the counts
    of a distribution add up to the number of tickets.  For an agent the
    three distributions are empty. *)
Theorem report_distributions (zone : JS.TimeZone) (user : Principal)
    (db : Collection) (now1 now2 : Date) :
  exists r,
    getDashboardStats zone user db now1 now2 = Ok200 r
    /\ (role user <> "agent" ->
        exactDistribution priority db (priorityStats r)
        /\ exactDistribution category db (categoryStats r)
        /\ exactDistribution status db (statusStats r))
    /\ (role user = "agent" ->
        priorityStats r = [] /\ categoryStats r = [] /\ statusStats r = []).
Proof.
  eexists. split; [reflexivity|]. unfold computeStats.
  destruct (slaCounters _) as [compliant total].
  destruct (slaBreakdown _ _) as [[n w] b].
  cbn [priorityStats categoryStats statusStats]. split.
  - intros Hrole. apply String.eqb_neq in Hrole.
    unfold statsQueryOf, aggregate. rewrite Hrole.
    replace (filter (matchesUncast []) db) with db.
    + split; [|split]; apply groupCount_spec.
    + clear. induction db as [|t db IH]; [reflexivity|]. simpl. now f_equal.
  - intros Hrole. unfold statsQueryOf. rewrite Hrole.
    cbn [String.eqb Ascii.eqb Bool.eqb].
    repeat split; apply aggregate_identifier_filter;
      exists (pid user); left; now left.
Qed.

Lemma countIf_filter (f g : Ticket -> bool) (l : list Ticket) :
  countIf f (filter g l) = countIf (fun t => g t && f t) l.
Proof.
  induction l as [|t l IH]; [reflexivity|]. simpl filter.
  destruct (g t) eqn:Hg.
  - now rewrite !countIf_cons, IH, Hg.
  - now rewrite countIf_cons, IH, Hg.
Qed.

Lemma countIf_ext (f g : Ticket -> bool) (l : list Ticket) :
  (forall t, f t = g t) -> countIf f l = countIf g l.
Proof. intros H. unfold countIf. now rewrite (filter_ext f g H). Qed.

Lemma countIf_le (f g : Ticket -> bool) (l : list Ticket) :
  (forall t, f t = true -> g t = true) -> countIf f l <= countIf g l.
Proof.
  intros H. induction l as [|t l IH]; [reflexivity|].
  rewrite !countIf_cons. specialize (H t).
  destruct (f t), (g t); try lia; discriminate (H eq_refl).
Qed.

Lemma slaCounters_fold (l : list Ticket) (c n : Z) :
  fold_left
    (fun '(compliant, total) ticket =>
       match resolvedAt ticket with
       | Some r =>
           (if r <=? slaDeadline ticket then compliant + 1 else compliant,
            total + 1)
       | None => (compliant, total)
       end)
    l (c, n)
  = (c + countIf metDeadline l,
     n + countIf
           (fun t => match resolvedAt t with Some _ => true | None => false end)
           l).
Proof.
  revert c n. induction l as [|t l IH]; intros c n; cbn [fold_left].
  - unfold countIf. simpl. f_equal; lia.
  - rewrite !countIf_cons.
    assert (Hm : metDeadline t
                 = match resolvedAt t with
                   | Some r => r <=? slaDeadline t
                   | None => false
                   end) by reflexivity.
    rewrite Hm. destruct (resolvedAt t) as [r|]; rewrite IH.
    + destruct (r <=? slaDeadline t); f_equal; lia.
    + f_equal; lia.
Qed.

(** The rate is computed on doubles: 23 compliant tickets of 40 give
    [(23 / 40) * 100], a double just below 57.5, hence 57 and not the 58
    that the exact quotient would round to. *)
Lemma percentage_on_doubles :
  JS.percentage 23 40 = 57
  /\ JS.Math_round (inject_Z 23 / inject_Z 40 * 100)%Q = 58
  /\ JS.percentage 1 8 = 13
  /\ JS.percentage 40 40 = 100.
Proof. vm_compute. repeat split. Qed.

(** X17.  The compliance figures of a report are taken over the tickets in
    scope that are resolved or closed and have a resolution date: the count
    of compliant tickets is the number of those resolved no later than their
    deadline, which is at most the number of such tickets; the rate is 0
    when there is no such ticket and otherwise the double
    [(compliant / total) * 100] rounded to the nearest integer. *)
Theorem report_sla_compliance (zone : JS.TimeZone) (user : Principal) (db : Collection)
    (now1 now2 : Date) :
  exists r,
    getDashboardStats zone user db now1 now2 = Ok200 r
    /\ let n := countIf resolvedOnRecord (reportScope user db) in
       let c := countIf (fun t => resolvedOnRecord t && metDeadline t)
                  (reportScope user db) in
       slaCompliantTickets r = c
       /\ 0 <= c <= n
       /\ (n = 0 -> slaComplianceRate r = 0)
       /\ (0 < n -> slaComplianceRate r = JS.percentage c n).
Proof.
  eexists. split; [reflexivity|]. intros n c. unfold computeStats.
  rewrite find_app, find_statsQueryOf.
  unfold slaCounters. rewrite slaCounters_fold.
  destruct (slaBreakdown _ _) as [[sn sw] sb].
  cbn [slaCompliantTickets slaComplianceRate]. rewrite !Z.add_0_l.
  unfold find. rewrite !countIf_filter.
  assert (Hn : countIf
                 (fun t =>
                    matches [status_in ["resolved"; "closed"];
                             resolvedAt_exists_ne_null] t
                    && match resolvedAt t with
                       | Some _ => true
                       | None => false
                       end) (reportScope user db) = n).
  { apply countIf_ext. intros t.
    unfold matches, resolvedOnRecord, metDeadline, inEnum. simpl.
    destruct (resolvedAt t) as [d|];
      destruct (status t =? "resolved")%string;
      destruct (status t =? "closed")%string; simpl;
      try reflexivity; destruct (d <=? slaDeadline t); reflexivity. }
  assert (Hc : countIf
                 (fun t =>
                    matches [status_in ["resolved"; "closed"];
                             resolvedAt_exists_ne_null] t
                    && metDeadline t) (reportScope user db) = c).
  { apply countIf_ext. intros t.
    unfold matches, resolvedOnRecord, metDeadline, inEnum. simpl.
    destruct (resolvedAt t) as [d|];
      destruct (status t =? "resolved")%string;
      destruct (status t =? "closed")%string; simpl;
      try reflexivity; destruct (d <=? slaDeadline t); reflexivity. }
  rewrite Hn, Hc.
  assert (Hle : 0 <= c <= n).
  { split; [apply countIf_nonneg|]. apply countIf_le. intros t H.
    now apply andb_prop in H as [H _]. }
  split; [reflexivity|]. split; [exact Hle|].
  destruct (Z.ltb_spec 0 n) as [Hpos|Hzero].
  - split; [lia|]. intros _. reflexivity.
  - split; [reflexivity|]. lia.
Qed.

Lemma slaBreakdown_fold (l : list Ticket) (now : Date) (n w b : Z) :
  fold_left
    (fun '(slaNormal, slaWarning, slaBreached) ticket =>
       if (status ticket =? "resolved")%string
          || (status ticket =? "closed")%string
       then (slaNormal, slaWarning, slaBreached)
       else
         let timeRemaining := slaDeadline ticket - now in
         if timeRemaining <? 0 then (slaNormal, slaWarning, slaBreached + 1)
         else if timeRemaining <? twoHours
         then (slaNormal, slaWarning + 1, slaBreached)
         else (slaNormal + 1, slaWarning, slaBreached))
    l (n, w, b)
  = (n + countIf (fun t => SlaStatus_eqb (slaStatus t now) normal) l,
     w + countIf (fun t => SlaStatus_eqb (slaStatus t now) warning) l,
     b + countIf (fun t => SlaStatus_eqb (slaStatus t now) breached) l).
Proof.
  revert n w b. induction l as [|t l IH]; intros n w b; cbn [fold_left].
  - unfold countIf. simpl. repeat (f_equal; try lia).
  - rewrite !countIf_cons.
    destruct ((status t =? "resolved")%string || (status t =? "closed")%string)
      eqn:E.
    + rewrite IH.
      assert (Hs : slaStatus t now = completed)
        by (unfold slaStatus; now rewrite E).
      rewrite Hs. cbn [SlaStatus_eqb]. repeat (f_equal; try lia).
    + cbv zeta. destruct (slaDeadline t - now <? 0) eqn:E0.
      * rewrite IH.
        assert (Hs : slaStatus t now = breached)
          by (unfold slaStatus; now rewrite E, E0).
        rewrite Hs. cbn [SlaStatus_eqb]. repeat (f_equal; try lia).
      * destruct (slaDeadline t - now <? twoHours) eqn:E2; rewrite IH.
        -- assert (Hs : slaStatus t now = warning)
             by (unfold slaStatus; now rewrite E, E0, E2).
           rewrite Hs. cbn [SlaStatus_eqb]. repeat (f_equal; try lia).
        -- assert (Hs : slaStatus t now = normal)
             by (unfold slaStatus; now rewrite E, E0, E2).
           rewrite Hs. cbn [SlaStatus_eqb]. repeat (f_equal; try lia).
Qed.

Lemma slaStatus_partition (l : list Ticket) (now : Date) :
  countIf (fun t => SlaStatus_eqb (slaStatus t now) normal) l
  + countIf (fun t => SlaStatus_eqb (slaStatus t now) warning) l
  + countIf (fun t => SlaStatus_eqb (slaStatus t now) breached) l
  = countIf isLive l.
Proof.
  induction l as [|t l IH]; [reflexivity|].
  rewrite !countIf_cons, <- IH. unfold isLive, slaStatus.
  destruct ((status t =? "resolved")%string || (status t =? "closed")%string);
    cbn [negb SlaStatus_eqb]; [lia|].
  cbv zeta. destruct (slaDeadline t - now <? 0); cbn [SlaStatus_eqb]; [lia|].
  destruct (slaDeadline t - now <? twoHours); cbn [SlaStatus_eqb]; lia.
Qed.

(** X18.  The SLA breakdown of a report agrees with the status that each
    ticket derives for itself: its normal, warning and breached counts are
    the numbers of tickets in scope whose derived SLA status, at the time
    the report reads the clock, is normal, warning and breached, and they
    add up to the number of tickets in scope that are neither resolved nor
    closed. *)
Theorem report_sla_breakdown (zone : JS.TimeZone) (user : Principal) (db : Collection)
    (now1 now2 : Date) :
  exists r,
    getDashboardStats zone user db now1 now2 = Ok200 r
    /\ let derived (s : SlaStatus) :=
         countIf (fun t => SlaStatus_eqb (slaStatus t now2) s)
           (reportScope user db) in
       slaStatus_normal r = derived normal
       /\ slaStatus_warning r = derived warning
       /\ slaStatus_breached r = derived breached
       /\ slaStatus_normal r + slaStatus_warning r + slaStatus_breached r
          = countIf isLive (reportScope user db).
Proof.
  eexists. split; [reflexivity|]. intros derived. unfold computeStats.
  destruct (slaCounters _) as [compliant total].
  rewrite find_statsQueryOf. unfold slaBreakdown. rewrite slaBreakdown_fold.
  cbn [slaStatus_normal slaStatus_warning slaStatus_breached].
  rewrite !Z.add_0_l. repeat split. apply slaStatus_partition.
Qed.

(** ** The SLA status over time *)

(** X19.  For a ticket that does not change, the SLA status only gets worse
    as time passes: once breached it stays breached, a warning stays a
    warning or becomes a breach, a status that is normal at a later time was
    normal before, and a completed ticket is completed at every time. *)
Theorem slaStatus_worsens (t : Ticket) (now later : Date) :
  now <= later ->
  (slaStatus t now = breached -> slaStatus t later = breached)
  /\ (slaStatus t now = warning ->
      slaStatus t later = warning \/ slaStatus t later = breached)
  /\ (slaStatus t later = normal -> slaStatus t now = normal)
  /\ (slaStatus t now = completed <-> slaStatus t later = completed).
Proof.
  intros Hle. unfold slaStatus, twoHours.
  destruct ((status t =? "resolved")%string || (status t =? "closed")%string).
  - repeat split; try discriminate; auto.
  - cbv zeta.
    destruct (Z.ltb_spec (slaDeadline t - now) 0);
      destruct (Z.ltb_spec (slaDeadline t - now) (2 * 60 * 60 * 1000));
      destruct (Z.ltb_spec (slaDeadline t - later) 0);
      destruct (Z.ltb_spec (slaDeadline t - later) (2 * 60 * 60 * 1000));
      repeat split; try discriminate; auto; lia.
Qed.

(** X20.  A ticket created from a valid draft is normal up to two hours
    before its deadline, warning after that up to and including the
    deadline, and breached from then on, as long as its status is open.
    The deadline is the clock reading of the creation moved on by 24 hours
    of local time; where the offset of the time zone is the same at both
    ends, that is 22 hours and 24 hours after the clock reading. *)
Theorem created_ticket_sla_timeline (zone : JS.TimeZone) (user : Principal) (body : Body)
    (db : Collection) (now stamp at_ : Date) :
  validDraft body = true ->
  exists db' t,
    createTicket zone user body db now stamp = (db', Created201 (Some t))
    /\ slaDeadline t = addHours zone 24 now
    /\ (at_ <= slaDeadline t - 2 * 3600000 -> slaStatus t at_ = normal)
    /\ (slaDeadline t - 2 * 3600000 < at_ <= slaDeadline t ->
        slaStatus t at_ = warning)
    /\ (slaDeadline t < at_ -> slaStatus t at_ = breached)
    /\ (steadyOffset zone msPerDay now ->
        (at_ <= now + 22 * 3600000 -> slaStatus t at_ = normal)
        /\ (now + 22 * 3600000 < at_ <= now + 24 * 3600000 ->
            slaStatus t at_ = warning)
        /\ (now + 24 * 3600000 < at_ -> slaStatus t at_ = breached)).
Proof.
  intros Hvalid. rewrite (createTicket_valid _ _ _ _ _ _ Hvalid).
  do 2 eexists. split; [reflexivity|].
  unfold slaStatus, draftDocument, newDocument, twoHours.
  cbn [status slaDeadline n_slaDeadline String.eqb Ascii.eqb Bool.eqb orb].
  cbv zeta. split; [reflexivity|].
  assert (Hsteady : steadyOffset zone msPerDay now ->
                    addHours zone 24 now = now + 24 * 3600000).
  { unfold steadyOffset, addHours, JS.localShift, msPerDay. cbv zeta.
    change (24 * (60 * 60 * 1000)) with 86400000.
    intros ->. lia. }
  destruct (Z.ltb_spec (addHours zone 24 now - at_) 0);
    destruct (Z.ltb_spec (addHours zone 24 now - at_)
                (2 * 60 * 60 * 1000));
    repeat split; intros; try reflexivity;
      try (rewrite Hsteady in * by assumption); lia.
Qed.

(** ** The resolution time *)

(** X21.  The resolution time in minutes is the difference of the two dates
    in milliseconds, plus half a minute, divided by a minute and rounded
    down: a whole number of minutes is returned as it is, less than half a
    minute counts as 0, half a minute counts as 1, and a later resolution
    date never gives fewer minutes. *)
Theorem minutesBetween_whole_minutes (createdTime resolvedTime : Date) :
  minutesBetween createdTime resolvedTime
  = (resolvedTime - createdTime + 30000) / 60000
  /\ (forall k, resolvedTime = createdTime + 60000 * k ->
        minutesBetween createdTime resolvedTime = k)
  /\ (minutesBetween createdTime resolvedTime = 0
      <-> -30000 <= resolvedTime - createdTime < 30000)
  /\ (forall later, resolvedTime <= later ->
        minutesBetween createdTime resolvedTime
        <= minutesBetween createdTime later).
Proof.
  rewrite minutesBetween_div. split; [reflexivity|]. split; [|split].
  - intros k ->.
    replace (createdTime + 60000 * k - createdTime + 30000)
      with (30000 + k * 60000) by lia.
    rewrite Z.div_add by lia. reflexivity.
  - split.
    + intros H.
      pose proof (Z.div_mod (resolvedTime - createdTime + 30000) 60000).
      pose proof (Z.mod_pos_bound (resolvedTime - createdTime + 30000) 60000).
      lia.
    + intros H. apply Z.div_small. lia.
  - intros later Hle. rewrite minutesBetween_div.
    apply Z.div_le_mono; lia.
Qed.


(** ** White space *)









(** ** Further consequences *)


(** ** Instances *)

Lemma sample_store_distinct : NoDup (map _id Sample.store).
Proof.
  simpl. repeat (constructor; [simpl; intuition discriminate|]). constructor.
Qed.

Lemma sample_store_schemaValid : Forall schemaValid Sample.store.
Proof. repeat constructor. Qed.

Lemma sample_store_paired : Forall pairedResolution Sample.store.
Proof.
  repeat (constructor; [split; intros H; (reflexivity || discriminate H)|]).
  constructor.
Qed.

Lemma getTickets_lists_what_getTicket_returns_witness :
  NoDup (map _id Sample.store)
  /\ exists l,
       getTickets Sample.agentG Sample.store = Ok200 l
       /\ forall t,
            In t l <-> getTicket Sample.agentG (_id t) Sample.store = Ok200 t.
Proof.
  split; [exact sample_store_distinct|].
  exact (getTickets_lists_what_getTicket_returns Sample.agentG Sample.store
           sample_store_distinct).
Defined.

Lemma one_access_rule_witness :
  findById 1 Sample.store = Some Sample.ticket1
  /\ isForbidden
       (snd (updateTicket Sample.stranger 1 (Sample.withStatus "closed")
               Sample.store 5 5 5))
     = isForbidden (getTicket Sample.stranger 1 Sample.store).
Proof.
  split; [reflexivity|].
  exact (proj1 (one_access_rule Sample.stranger 1 (Sample.withStatus "closed")
                  Sample.store 5 5 5 Sample.ticket1 eq_refl)).
Defined.

Lemma addComment_appends_witness :
  findById 1 Sample.store = Some Sample.ticket1
  /\ documentValid Sample.ticket1
  /\ JS.trim " on it " <> ""
  /\ exists db' t',
       addComment Sample.agentG 1 (Sample.withText " on it ") Sample.store 5
       = (db', Ok200 (Some t'))
       /\ comments t'
          = comments Sample.ticket1 ++ [mkComment 2 "on it" false 5].
Proof.
  assert (Hne : JS.trim " on it " <> "") by discriminate.
  split; [reflexivity|]. split; [reflexivity|]. split; [exact Hne|].
  destruct (addComment_appends Sample.agentG 1 (Sample.withText " on it ")
              Sample.store 5 Sample.ticket1 " on it "
              eq_refl eq_refl eq_refl eq_refl Hne)
    as (db' & t' & Hok & _ & Hc & _).
  exists db', t'. split; [exact Hok | exact Hc].
Defined.

Lemma created_ticket_read_back_witness :
  validDraft Sample.draft = true
  /\ exists db' t,
       createTicket Sample.utc Sample.agentG Sample.draft Sample.store 1000 1001
       = (db', Created201 (Some t))
       /\ createdBy t = pid Sample.agentG
       /\ getTicket Sample.agentG (_id t) db'
          = Forbidden403 "Access denied. This ticket is not assigned to you.".
Proof.
  split; [reflexivity|].
  destruct (created_ticket_read_back Sample.utc Sample.agentG Sample.draft Sample.store
              1000 1001 eq_refl) as (db' & t & Hok & Hby & _ & Hagent & _).
  exists db', t. split; [exact Hok|]. split; [exact Hby|].
  apply Hagent. reflexivity.
Defined.

Lemma assignment_moves_access_witness :
  findById 6 Sample.store = Some Sample.ticket6
  /\ exists db' t',
       updateTicket Sample.root 6 (Cases.assignTo (Some 5%N)) Sample.store
         5 5 5 = (db', Ok200 t')
       /\ assignedTo t' = Some 5%N
       /\ (getTicket Sample.agentG2 6 db' = Ok200 t'
           <-> Some 5%N = Some (pid Sample.agentG2)).
Proof.
  split; [reflexivity|].
  destruct (assignment_moves_access Sample.root 6 (Cases.assignTo (Some 5%N))
              Sample.store 5 5 5 Sample.ticket6 (Some 5%N)
              eq_refl eq_refl eq_refl eq_refl)
    as (db' & t' & Hok & Hto & Hagents).
  exists db', t'. split; [exact Hok|]. split; [exact Hto|].
  exact (proj1 (Hagents Sample.agentG2 eq_refl)).
Defined.


Lemma handlers_keep_schema_witness :
  Forall schemaValid Sample.store
  /\ Forall schemaValid
       (fst (updateTicket Sample.root 1 (Sample.withStatus "closed")
               Sample.store 5 5 5)).
Proof.
  split; [exact sample_store_schemaValid|].
  exact (proj1 (proj2 (handlers_keep_schema Sample.utc Sample.root 1
                         (Sample.withStatus "closed") Sample.store 5 5 5
                         sample_store_schemaValid))).
Defined.

Lemma handlers_keep_resolution_paired_witness :
  Forall pairedResolution Sample.store
  /\ Forall pairedResolution
       (fst (updateTicket Sample.root 1 (Sample.withStatus "resolved")
               Sample.store 5 5 5)).
Proof.
  split; [exact sample_store_paired|].
  exact (proj2 (proj2 (handlers_keep_resolution_paired Sample.utc Sample.root 1
                         (Sample.withStatus "resolved") Sample.store 5 5 5
                         sample_store_paired)) eq_refl eq_refl).
Defined.

Lemma report_counts_add_up_witness :
  Forall schemaValid Sample.store
  /\ exists r,
       getDashboardStats Sample.utc Sample.root Sample.store 0 0 = Ok200 r
       /\ totalTickets r
          = openTickets r + pendingTickets r + resolvedTickets r
            + closedTickets r.
Proof.
  split; [exact sample_store_schemaValid|].
  destruct (report_counts_add_up Sample.utc Sample.root Sample.store 0 0
              sample_store_schemaValid) as (r & Hr & _ & Hsum & _).
  exists r. split; [exact Hr | exact Hsum].
Defined.

Lemma slaStatus_worsens_witness :
  22 * Sample.hour <= 23 * Sample.hour
  /\ (slaStatus Sample.ticket1 (23 * Sample.hour) = normal ->
      slaStatus Sample.ticket1 (22 * Sample.hour) = normal).
Proof.
  assert (H : 22 * Sample.hour <= 23 * Sample.hour) by discriminate.
  split; [exact H|].
  exact (proj1 (proj2 (proj2 (slaStatus_worsens Sample.ticket1
                                (22 * Sample.hour) (23 * Sample.hour) H)))).
Defined.

Lemma created_ticket_sla_timeline_witness :
  validDraft Sample.draft = true
  /\ exists db' t,
       createTicket Sample.utc Sample.creator Sample.draft Sample.store 0 1
       = (db', Created201 (Some t))
       /\ slaStatus t (24 * Sample.hour) = warning.
Proof.
  split; [reflexivity|].
  destruct (created_ticket_sla_timeline Sample.utc Sample.creator Sample.draft
              Sample.store 0 1 (24 * Sample.hour) eq_refl)
    as (db' & t & Hok & _ & _ & _ & _ & Hsteady).
  exists db', t. split; [exact Hok|].
  destruct (Hsteady eq_refl) as (_ & Hwarn & _).
  apply Hwarn. split; [reflexivity | discriminate].
Defined.

